(** * AMB82 BLE service: the claim/hold lease state machine

    A shallow embedding of [AMB82Service] (amb82_ble_service.py) and the
    properties of its lease protocol.

    Python values are modelled as follows.
    - [str] is a sequence of Unicode code points; [bytes] a list of bytes.
    - [time.time()] readings are passed in explicitly as integers; only
      their differences are compared against [TOKEN_EXPIRY_DURATION].
    - The Bleak client is an oracle handed to every method: a GATT read
      or write either completes or raises [BleakError] or another
      exception.
    - A method is a computation over the service object that either
      returns a value or raises; assignments made before a raise stay. *)

From Stdlib Require Import ZArith NArith List Bool Lia.
From Stdlib.Strings Require Import String Ascii Byte.
Import ListNotations.
Open Scope Z_scope.

(** ** Python strings and byte strings *)

Module Py.

Definition str := list N.
Definition bytes := list byte.

(** A source-code literal (ASCII only) as a [str]. *)
Definition lit (s : string) : str :=
  map N_of_ascii (list_ascii_of_string s).

Definition blit (s : string) : bytes := list_byte_of_string s.

Fixpoint str_eqb (a b : str) : bool :=
  match a, b with
  | [], [] => true
  | x :: a', y :: b' => N.eqb x y && str_eqb a' b'
  | _, _ => false
  end.

(** [x == y] on values that are either [None] or a [str]. *)
Definition opt_str_eqb (a b : option str) : bool :=
  match a, b with
  | None, None => true
  | Some x, Some y => str_eqb x y
  | _, _ => false
  end.

(** Truth value of [None] / [str]: [None] and the empty string are falsy. *)
Definition truthy (a : option str) : bool :=
  match a with
  | None | Some [] => false
  | Some (_ :: _) => true
  end.

Definition truthy_str (a : str) : bool :=
  match a with [] => false | _ :: _ => true end.

(** *** [bytes.decode('utf-8')], strict error handler *)

Definition between (lo hi x : N) : bool := (N.leb lo x && N.leb x hi)%N.
Definition cont (x : N) : bool := between 128 191 x.
Definition low6 (x : N) : N := N.land x 63.

Fixpoint decode_utf8 (bs : list N) : option str :=
  match bs with
  | [] => Some []
  | b0 :: r0 =>
    if N.leb b0 127 then option_map (cons b0) (decode_utf8 r0)
    else if between 194 223 b0 then
      match r0 with
      | b1 :: r1 =>
        if cont b1
        then option_map (cons (N.land b0 31 * 64 + low6 b1)%N) (decode_utf8 r1)
        else None
      | _ => None
      end
    else if between 224 239 b0 then
      match r0 with
      | b1 :: b2 :: r2 =>
        if between (if N.eqb b0 224 then 160 else 128)
                   (if N.eqb b0 237 then 159 else 191) b1 && cont b2
        then option_map
               (cons (N.land b0 15 * 4096 + low6 b1 * 64 + low6 b2)%N)
               (decode_utf8 r2)
        else None
      | _ => None
      end
    else if between 240 244 b0 then
      match r0 with
      | b1 :: b2 :: b3 :: r3 =>
        if between (if N.eqb b0 240 then 144 else 128)
                   (if N.eqb b0 244 then 143 else 191) b1
           && cont b2 && cont b3
        then option_map
               (cons (N.land b0 7 * 262144 + low6 b1 * 4096
                      + low6 b2 * 64 + low6 b3)%N)
               (decode_utf8 r3)
        else None
      | _ => None
      end
    else None
  end.

(** [None] stands for [UnicodeDecodeError]. *)
Definition decode (data : bytes) : option str :=
  decode_utf8 (map Byte.to_N data).

(** *** [str.encode('utf-8')], strict error handler *)

Definition byte_of_N (n : N) : byte :=
  match Byte.of_N n with Some b => b | None => x00 end.

Definition encode_point (c : N) : option (list byte) :=
  if N.leb c 127 then Some [byte_of_N c]
  else if N.leb c 2047 then
    Some [byte_of_N (192 + c / 64); byte_of_N (128 + c mod 64)]%N
  else if between 55296 57343 c then None
  else if N.leb c 65535 then
    Some [byte_of_N (224 + c / 4096); byte_of_N (128 + (c / 64) mod 64);
          byte_of_N (128 + c mod 64)]%N
  else if N.leb c 1114111 then
    Some [byte_of_N (240 + c / 262144); byte_of_N (128 + (c / 4096) mod 64);
          byte_of_N (128 + (c / 64) mod 64); byte_of_N (128 + c mod 64)]%N
  else None.

(** [None] stands for [UnicodeEncodeError] (a lone surrogate). *)
Fixpoint encode (s : str) : option bytes :=
  match s with
  | [] => Some []
  | c :: s' =>
    match encode_point c, encode s' with
    | Some h, Some t => Some (h ++ t)
    | _, _ => None
    end
  end.

(** *** [str.strip()] *)

(** The characters [str.isspace] accepts. *)
Definition isspace (c : N) : bool :=
  between 9 13 c || between 28 32 c || N.eqb c 133 || N.eqb c 160
  || N.eqb c 5760 || between 8192 8202 c || between 8232 8233 c
  || N.eqb c 8239 || N.eqb c 8287 || N.eqb c 12288.

Fixpoint lstrip (s : str) : str :=
  match s with
  | c :: s' => if isspace c then lstrip s' else s
  | [] => []
  end.

Definition rstrip (s : str) : str := rev (lstrip (rev s)).
Definition strip (s : str) : str := rstrip (lstrip s).

(** *** [needle in hay] *)

Fixpoint startswith (hay needle : str) {struct needle} : bool :=
  match needle, hay with
  | [], _ => true
  | n :: needle', h :: hay' => N.eqb n h && startswith hay' needle'
  | _ :: _, [] => false
  end.

Fixpoint contains (hay needle : str) : bool :=
  startswith hay needle
  || match hay with
     | [] => false
     | _ :: hay' => contains hay' needle
     end.

(** [len(s)] *)
Definition len (s : str) : Z := Z.of_nat (List.length s).

End Py.

Import Py.

(** ** Exceptions, results and the method monad *)

Inductive PyExc :=
| NameError (name : string)
| AttributeError
| UnicodeDecodeError
| UnicodeEncodeError
| BleakError (msg : str)
| OtherException (msg : str).

(** [except BleakError] matches only [BleakError]; every exception above
    is an instance of [Exception]. *)
Definition is_BleakError (e : PyExc) : bool :=
  match e with BleakError _ => true | _ => false end.

Inductive Res (A : Type) :=
| Return (a : A)
| Raise (e : PyExc).
Arguments Return {A} a.
Arguments Raise {A} e.

(** Values interpolated into a log line. *)
Inductive LogArg :=
| AStr (s : str)
| ATok (t : option str)
| AExc (e : PyExc).

(** One call of [_log]: the f-string template and the values it embeds
    (the wall-clock prefix added by [_log] is left out). *)
Inductive LogMsg := Msg (template : string) (args : list LogArg).

Inductive GattCall :=
| ReadChar (uuid : string)
| WriteChar (uuid : string) (data : bytes) (response : bool).

Record Characteristic := mkChar {
  uuid : string;
  properties : list string
}.

(** The Bleak client object: its connection flag and the GATT requests
    issued through it, most recent first. *)
Record BleakClient := mkClient {
  is_connected : bool;
  gatt_calls : list GattCall
}.

Record AMB82Service := mkService {
  client : option BleakClient;
  log_messages : list LogMsg;
  active_token : option str;
  last_hold_time : Z;
  claim_enabled : bool;
  current_ssid : str;
  status : str;
  _claim_char : option Characteristic;
  _hold_char : option Characteristic;
  _ssid_control_char : option Characteristic;
  _current_ssid_char : option Characteristic;
  _wipe_char : option Characteristic;
  _status_char : option Characteristic
}.

Definition M (A : Type) : Type := AMB82Service -> Res A * AMB82Service.

Definition ret {A} (a : A) : M A := fun s => (Return a, s).
Definition raise {A} (e : PyExc) : M A := fun s => (Raise e, s).
Definition bind {A B} (c : M A) (k : A -> M B) : M B :=
  fun s => match c s with
           | (Return a, s') => k a s'
           | (Raise e, s') => (Raise e, s')
           end.
Definition get : M AMB82Service := fun s => (Return s, s).
Definition modify (f : AMB82Service -> AMB82Service) : M unit :=
  fun s => (Return tt, f s).

(** [try: body  except BleakError as e: h1  except Exception as e: h2]
    with both handlers folded into [handler]. *)
Definition try_except {A} (body : M A) (handler : PyExc -> M A) : M A :=
  fun s => match body s with
           | (Return a, s') => (Return a, s')
           | (Raise e, s') => handler e s'
           end.

Declare Scope py_scope.
Delimit Scope py_scope with py.
Notation "x <- c ;; k" := (bind c (fun x => k))
  (at level 61, c at next level, right associativity) : py_scope.
Notation "c ;; k" := (bind c (fun _ => k))
  (at level 61, right associativity) : py_scope.
Open Scope py_scope.

(** *** Attribute assignment *)

Definition set_client (v : option BleakClient) (s : AMB82Service) :=
  mkService v (log_messages s) (active_token s) (last_hold_time s)
    (claim_enabled s) (current_ssid s) (status s) (_claim_char s)
    (_hold_char s) (_ssid_control_char s) (_current_ssid_char s)
    (_wipe_char s) (_status_char s).
Definition set_log_messages (v : list LogMsg) (s : AMB82Service) :=
  mkService (client s) v (active_token s) (last_hold_time s)
    (claim_enabled s) (current_ssid s) (status s) (_claim_char s)
    (_hold_char s) (_ssid_control_char s) (_current_ssid_char s)
    (_wipe_char s) (_status_char s).
Definition set_active_token (v : option str) (s : AMB82Service) :=
  mkService (client s) (log_messages s) v (last_hold_time s)
    (claim_enabled s) (current_ssid s) (status s) (_claim_char s)
    (_hold_char s) (_ssid_control_char s) (_current_ssid_char s)
    (_wipe_char s) (_status_char s).
Definition set_last_hold_time (v : Z) (s : AMB82Service) :=
  mkService (client s) (log_messages s) (active_token s) v
    (claim_enabled s) (current_ssid s) (status s) (_claim_char s)
    (_hold_char s) (_ssid_control_char s) (_current_ssid_char s)
    (_wipe_char s) (_status_char s).
Definition set_claim_enabled (v : bool) (s : AMB82Service) :=
  mkService (client s) (log_messages s) (active_token s) (last_hold_time s)
    v (current_ssid s) (status s) (_claim_char s)
    (_hold_char s) (_ssid_control_char s) (_current_ssid_char s)
    (_wipe_char s) (_status_char s).
Definition set_current_ssid (v : str) (s : AMB82Service) :=
  mkService (client s) (log_messages s) (active_token s) (last_hold_time s)
    (claim_enabled s) v (status s) (_claim_char s)
    (_hold_char s) (_ssid_control_char s) (_current_ssid_char s)
    (_wipe_char s) (_status_char s).
Definition set_status (v : str) (s : AMB82Service) :=
  mkService (client s) (log_messages s) (active_token s) (last_hold_time s)
    (claim_enabled s) (current_ssid s) v (_claim_char s)
    (_hold_char s) (_ssid_control_char s) (_current_ssid_char s)
    (_wipe_char s) (_status_char s).

(** ** Module-level names *)

(** The integer constants bound at module level.  The other module-level
    names (the UUID strings, [DEVICE_NAME], the imports) are not read by
    the methods modelled here. *)
Definition module_globals : list (string * Z) :=
  [("TOKEN_EXPIRY_DURATION"%string, 3); ("TOKEN_LENGTH"%string, 8)].

Fixpoint lookup (name : string) (env : list (string * Z)) : option Z :=
  match env with
  | [] => None
  | (k, v) :: env' => if String.eqb name k then Some v else lookup name env'
  end.

(** Evaluating a global name: its value, or [NameError] when the module
    binds no such name. *)
Definition load_global (name : string) : M Z :=
  match lookup name module_globals with
  | Some v => ret v
  | None => raise (NameError name)
  end.

(** ** The service *)

(** [_log] appends the line to [log_messages] and then prints it.  The
    model keeps the append and takes [print] to write the line.  On a
    UTF-8 standard output with the strict error handler [print] raises
    [UnicodeEncodeError] instead when the line holds a lone surrogate;
    such a character can only come with a text from outside the object
    (a caller's argument, the message of an exception), and lemma
    [run_lines_printable] shows that a run of operations whose outside
    texts are printable logs printable lines only. *)
Definition _log (m : LogMsg) : M unit :=
  modify (fun s => set_log_messages (log_messages s ++ [m]) s).

Definition reset_state : M unit :=
  _log (Msg "Resetting service state." []) ;;
  modify (set_active_token None) ;;
  modify (set_last_hold_time 0) ;;
  modify (set_claim_enabled true) ;;
  modify (set_current_ssid (lit "N/A")) ;;
  modify (set_status (lit "Idle")).

(** The object [__init__] leaves behind: no client, no characteristic
    handles, an empty log extended by [reset_state]. *)
Definition blank : AMB82Service :=
  mkService None [] None 0 true [] [] None None None None None None.

Definition init : AMB82Service := snd (reset_state blank).

Definition _is_token_valid (token : option str) (now : Z) : M bool :=
  self <- get ;;
  if negb (truthy token) || negb (opt_str_eqb token (active_token self))
  then ret false
  else
    d <- load_global "TOKEN_EXPIRY_DURATION" ;;
    expired <- (if now - last_hold_time self >? d
                then x <- load_global "TOKEN_EXPIRATION" ;; ret (negb (x =? 0))
                else ret false) ;;
    if expired then
      _log (Msg "Token expired." []) ;;
      modify (set_active_token None) ;;
      modify (set_claim_enabled true) ;;
      ret false
    else ret true.

(** [not self.client or not self.client.is_connected or not <char>] *)
Definition not_ready (self : AMB82Service) (ch : option Characteristic)
  : bool :=
  match client self with
  | None => true
  | Some c =>
    negb (is_connected c)
    || match ch with None => true | Some _ => false end
  end.

(** [<char>.uuid] *)
Definition uuid_of (ch : option Characteristic) : M string :=
  match ch with
  | Some c => ret (uuid c)
  | None => raise AttributeError
  end.

Definition record_call (c : GattCall) : M unit :=
  modify (fun s =>
    match client s with
    | Some cl =>
      set_client (Some (mkClient (is_connected cl) (c :: gatt_calls cl))) s
    | None => s
    end).

(** [await self.client.read_gatt_char(u)], completing as [rd] says. *)
Definition read_gatt_char (u : string) (rd : Res bytes) : M bytes :=
  record_call (ReadChar u) ;;
  match rd with Return b => ret b | Raise e => raise e end.

(** [await self.client.write_gatt_char(u, data, response=True)]. *)
Definition write_gatt_char (u : string) (data : bytes) (wr : Res unit)
  : M unit :=
  record_call (WriteChar u data true) ;;
  match wr with Return _ => ret tt | Raise e => raise e end.

(** [b.decode('utf-8').strip()] *)
Definition decode_strip (b : bytes) : M str :=
  match decode b with
  | Some s => ret (strip s)
  | None => raise UnicodeDecodeError
  end.

(** [s.encode('utf-8')] *)
Definition encode_utf8 (s : str) : M bytes :=
  match encode s with
  | Some b => ret b
  | None => raise UnicodeEncodeError
  end.

(** [token.encode('utf-8')] for an argument that may be [None]. *)
Definition encode_token (token : option str) : M bytes :=
  match token with
  | Some s => encode_utf8 s
  | None => raise AttributeError
  end.

(** *** Characteristic interaction methods

    Each takes the clock readings its [time.time()] calls obtain
    ([t_check] inside [_is_token_valid], [t_done] after the GATT request)
    and the way the GATT request completes. *)

Definition store_claim (token : str) (t_done : Z) : M (option str) :=
  modify (set_active_token (Some token)) ;;
  modify (set_last_hold_time t_done) ;;
  modify (set_claim_enabled false) ;;
  self <- get ;;
  _log (Msg "Claim successful. Received token: {self.active_token}"
            [ATok (active_token self)]) ;;
  self <- get ;;
  ret (active_token self).

Definition claim (t_check : Z) (rd : Res bytes) (t_done : Z)
  : M (option str) :=
  self <- get ;;
  if not_ready self (_claim_char self) then
    _log (Msg "Claim failed: Not connected or claim characteristic not found."
              []) ;;
    ret None
  else if negb (claim_enabled self) then
    _log (Msg "Claim failed: Claiming is currently disabled (likely held by a token)."
              []) ;;
    ret None
  else
    (if truthy (active_token self) then
       v <- _is_token_valid (active_token self) t_check ;;
       if negb v
       then _log (Msg "Claiming allowed: Previous token expired." [])
       else ret tt
     else ret tt) ;;
    _log (Msg "Attempting to claim..." []) ;;
    try_except
      (self <- get ;;
       u <- uuid_of (_claim_char self) ;;
       token_bytes <- read_gatt_char u rd ;;
       token <- decode_strip token_bytes ;;
       ok <- (if truthy_str token
              then n <- load_global "TOKEN_LENGTH" ;; ret (len token =? n)
              else ret false) ;;
       if (ok : bool) then
         store_claim token t_done
       else
         _log (Msg "Claim failed: Invalid token received from device ('{token}')."
                   [AStr token]) ;;
         ret None)
      (fun e =>
         if is_BleakError e then
           _log (Msg "Claim failed: BLE error - {e}" [AExc e]) ;; ret None
         else
           _log (Msg "Claim failed: Unexpected error - {e}" [AExc e]) ;;
           ret None).

Definition hold (token : option str) (t_check : Z) (wr : Res unit)
  (t_done : Z) : M bool :=
  self <- get ;;
  if not_ready self (_hold_char self) then
    _log (Msg "Hold failed: Not connected or hold characteristic not found."
              []) ;;
    ret false
  else
    v <- _is_token_valid token t_check ;;
    if negb v then
      _log (Msg "Hold failed: Invalid or expired token '{token}'."
                [ATok token]) ;;
      ret false
    else
      _log (Msg "Sending hold command with token: {token}..." [ATok token]) ;;
      try_except
        (self <- get ;;
         u <- uuid_of (_hold_char self) ;;
         data <- encode_token token ;;
         write_gatt_char u data wr ;;
         modify (set_last_hold_time t_done) ;;
         _log (Msg "Hold command successful." []) ;;
         ret true)
        (fun e =>
           if is_BleakError e then
             _log (Msg "Hold failed: BLE error - {e}" [AExc e]) ;; ret false
           else
             _log (Msg "Hold failed: Unexpected error - {e}" [AExc e]) ;;
             ret false).

(** The command string [ssid] builds before encoding it. *)
Definition ssid_payload (token : str) (new_ssid password : option str)
  : str :=
  let payload := token in
  if truthy new_ssid then
    let payload :=
      payload ++ lit "," ++ match new_ssid with Some s => s | None => [] end in
    if truthy password then
      payload ++ lit "," ++ match password with Some p => p | None => [] end
    else payload
  else payload.

Definition ssid (token new_ssid password : option str) (t_check : Z)
  (wr : Res unit) (t_done : Z) : M bool :=
  self <- get ;;
  if not_ready self (_ssid_control_char self) then
    _log (Msg "SSID command failed: Not connected or SSID control characteristic not found."
              []) ;;
    ret false
  else
    v <- _is_token_valid token t_check ;;
    if negb v then
      _log (Msg "SSID command failed: Invalid or expired token '{token}'."
                [ATok token]) ;;
      ret false
    else
      tok <- match token with Some t => ret t | None => raise AttributeError
             end ;;
      let payload := ssid_payload tok new_ssid password in
      _log (Msg "Sending SSID command with payload: '{payload}'..."
                [AStr payload]) ;;
      try_except
        (self <- get ;;
         u <- uuid_of (_ssid_control_char self) ;;
         data <- encode_utf8 payload ;;
         write_gatt_char u data wr ;;
         modify (set_last_hold_time t_done) ;;
         _log (Msg "SSID command successful." []) ;;
         ret true)
        (fun e =>
           if is_BleakError e then
             _log (Msg "SSID command failed: BLE error - {e}" [AExc e]) ;;
             ret false
           else
             _log (Msg "SSID command failed: Unexpected error - {e}"
                       [AExc e]) ;;
             ret false).

Definition wipe (token : option str) (t_check : Z) (wr : Res unit)
  (t_done : Z) : M bool :=
  self <- get ;;
  if not_ready self (_wipe_char self) then
    _log (Msg "Wipe failed: Not connected or wipe characteristic not found."
              []) ;;
    ret false
  else
    v <- _is_token_valid token t_check ;;
    if negb v then
      _log (Msg "Wipe command failed: Invalid or expired token '{token}'."
                [ATok token]) ;;
      ret false
    else
      _log (Msg "Sending wipe command with token: {token}..." [ATok token]) ;;
      try_except
        (self <- get ;;
         u <- uuid_of (_wipe_char self) ;;
         data <- encode_token token ;;
         write_gatt_char u data wr ;;
         modify (set_last_hold_time t_done) ;;
         _log (Msg "Wipe command successful." []) ;;
         ret true)
        (fun e =>
           if is_BleakError e then
             _log (Msg "Wipe failed: BLE error - {e}" [AExc e]) ;; ret false
           else
             _log (Msg "Wipe failed: Unexpected error - {e}" [AExc e]) ;;
             ret false).

(** [prop in c.properties] *)
Definition has_property (prop : string) (c : Characteristic) : bool :=
  existsb (String.eqb prop) (properties c).

(** ["read" not in <char>.properties] *)
Definition lacks (prop : string) (ch : option Characteristic) : M bool :=
  match ch with
  | Some c => ret (negb (has_property prop c))
  | None => raise AttributeError
  end.

Definition read_current_ssid (rd : Res bytes) : M str :=
  self <- get ;;
  if not_ready self (_current_ssid_char self) then
    _log (Msg "Read SSID failed: Not connected or characteristic not found."
              []) ;;
    ret (lit "Error")
  else
    unreadable <- lacks "read" (_current_ssid_char self) ;;
    if (unreadable : bool) then
      _log (Msg "Read SSID failed: Characteristic does not support read."
                []) ;;
      ret (lit "Error: Not readable")
    else
      _log (Msg "Reading current SSID..." []) ;;
      try_except
        (self <- get ;;
         u <- uuid_of (_current_ssid_char self) ;;
         ssid_bytes <- read_gatt_char u rd ;;
         s <- decode_strip ssid_bytes ;;
         modify (set_current_ssid s) ;;
         self <- get ;;
         _log (Msg "Current SSID read: {self.current_ssid}"
                   [AStr (current_ssid self)]) ;;
         self <- get ;;
         ret (current_ssid self))
        (fun e =>
           if is_BleakError e then
             _log (Msg "Read SSID failed: BLE error - {e}" [AExc e]) ;;
             ret (lit "Error")
           else
             _log (Msg "Read SSID failed: Unexpected error - {e}" [AExc e]) ;;
             ret (lit "Error")).

Definition read_status (rd : Res bytes) : M str :=
  self <- get ;;
  if not_ready self (_status_char self) then
    _log (Msg "Read Status failed: Not connected or characteristic not found."
              []) ;;
    ret (lit "Error")
  else
    unreadable <- lacks "read" (_status_char self) ;;
    if (unreadable : bool) then
      _log (Msg "Read Status failed: Characteristic does not support read."
                []) ;;
      ret (lit "Error: Not readable")
    else
      _log (Msg "Reading status..." []) ;;
      try_except
        (self <- get ;;
         u <- uuid_of (_status_char self) ;;
         status_bytes <- read_gatt_char u rd ;;
         s <- decode_strip status_bytes ;;
         modify (set_status s) ;;
         self <- get ;;
         _log (Msg "Status read: {self.status}" [AStr (status self)]) ;;
         self <- get ;;
         ret (status self))
        (fun e =>
           if is_BleakError e then
             _log (Msg "Read Status failed: BLE error - {e}" [AExc e]) ;;
             ret (lit "Error")
           else
             _log (Msg "Read Status failed: Unexpected error - {e}"
                       [AExc e]) ;;
             ret (lit "Error")).

(** *** Notification handlers *)

Definition _default_status_handler (data : bytes) : M unit :=
  s <- decode_strip data ;;
  modify (set_status s) ;;
  self <- get ;;
  _log (Msg "Status Notification Received: {self.status}"
            [AStr (status self)]) ;;
  self <- get ;;
  if contains (status self) (lit "Expired")
     || contains (status self) (lit "Reset")
  then
    modify (set_active_token None) ;;
    modify (set_claim_enabled true)
  else ret tt.

Definition _default_ssid_handler (data : bytes) : M unit :=
  s <- decode_strip data ;;
  modify (set_current_ssid s) ;;
  self <- get ;;
  _log (Msg "Current SSID Notification Received: {self.current_ssid}"
            [AStr (current_ssid self)]).

(** *** State management *)

(** The dictionary [get_state] returns, one field per key. *)
Record StateView := mkView {
  v_active_token : option str;
  v_claim_enabled : bool;
  v_current_ssid : str;
  v_last_hold_time : Z;
  v_token_expired : bool;
  v_status : str;
  v_is_connected : bool
}.

Definition get_state (now : Z) : M StateView :=
  self <- get ;;
  token_expired <-
    (if truthy (active_token self) then
       d <- load_global "TOKEN_EXPIRY_DURATION" ;;
       ret (now - last_hold_time self >? d)
     else ret false) ;;
  self <- get ;;
  ret (mkView
         (if negb token_expired then active_token self else None)
         (claim_enabled self || token_expired)
         (current_ssid self)
         (last_hold_time self)
         token_expired
         (status self)
         (match client self with
          | Some c => is_connected c
          | None => false
          end)).

Definition reset : M unit := reset_state.

(** ** Runs of the service *)

(** What can happen to a service object: a call of one of its methods
    with the environment's answers, a notification delivered to one of
    its handlers, or the link attributes being replaced ([connect],
    [_discover_characteristics] and the radio set [client] and the six
    characteristic handles; they assign no lease attribute). *)
Inductive Op :=
| OpClaim (t_check : Z) (rd : Res bytes) (t_done : Z)
| OpHold (token : option str) (t_check : Z) (wr : Res unit) (t_done : Z)
| OpSsid (token new_ssid password : option str) (t_check : Z)
    (wr : Res unit) (t_done : Z)
| OpWipe (token : option str) (t_check : Z) (wr : Res unit) (t_done : Z)
| OpReadCurrentSsid (rd : Res bytes)
| OpReadStatus (rd : Res bytes)
| OpStatusNotification (data : bytes)
| OpSsidNotification (data : bytes)
| OpGetState (now : Z)
| OpReset
| OpLink (cl : option BleakClient)
    (c_claim c_hold c_ssid_control c_current_ssid c_wipe c_status
       : option Characteristic).

Definition relink (cl : option BleakClient)
  (c1 c2 c3 c4 c5 c6 : option Characteristic) : M unit :=
  modify (fun s =>
    mkService cl (log_messages s) (active_token s) (last_hold_time s)
      (claim_enabled s) (current_ssid s) (status s) c1 c2 c3 c4 c5 c6).

(** How a call ended: [None] when it returned, [Some e] when [e]
    propagated out of it. *)
Definition ended {A} (r : Res A) : option PyExc :=
  match r with Return _ => None | Raise e => Some e end.

Definition exec {A} (c : M A) (s : AMB82Service)
  : option PyExc * AMB82Service :=
  (ended (fst (c s)), snd (c s)).

Definition run_op (op : Op) (s : AMB82Service)
  : option PyExc * AMB82Service :=
  match op with
  | OpClaim t rd t' => exec (claim t rd t') s
  | OpHold tok t wr t' => exec (hold tok t wr t') s
  | OpSsid tok n p t wr t' => exec (ssid tok n p t wr t') s
  | OpWipe tok t wr t' => exec (wipe tok t wr t') s
  | OpReadCurrentSsid rd => exec (read_current_ssid rd) s
  | OpReadStatus rd => exec (read_status rd) s
  | OpStatusNotification d => exec (_default_status_handler d) s
  | OpSsidNotification d => exec (_default_ssid_handler d) s
  | OpGetState now => exec (get_state now) s
  | OpReset => exec reset s
  | OpLink cl c1 c2 c3 c4 c5 c6 => exec (relink cl c1 c2 c3 c4 c5 c6) s
  end.

(** The object after [op], whether the call returned or raised. *)
Definition after (op : Op) (s : AMB82Service) : AMB82Service :=
  snd (run_op op s).

Definition run (ops : list Op) (s : AMB82Service) : AMB82Service :=
  fold_left (fun acc op => after op acc) ops s.

Inductive reachable : AMB82Service -> Prop :=
| reach_init : reachable init
| reach_step : forall s op, reachable s -> reachable (after op s).

(** A token the service would accept at time [now]: [_is_token_valid]
    returns [True] for it. *)
Definition accepted (s : AMB82Service) (now : Z) (token : option str)
  : Prop :=
  fst (_is_token_valid token now s) = Return true.

(** The stored token is set and its age does not exceed the expiry
    duration. *)
Definition holds_live_token (s : AMB82Service) (now : Z) : Prop :=
  exists t, active_token s = Some t /\ now - last_hold_time s <= 3.

(** The lease attributes of a service object. *)
Definition lease (s : AMB82Service) : option str * Z * bool :=
  (active_token s, last_hold_time s, claim_enabled s).

(** Either no token is stored and claiming is enabled, or a token of
    [TOKEN_LENGTH] characters is stored and claiming is disabled. *)
Definition lease_consistent (s : AMB82Service) : Prop :=
  (active_token s = None /\ claim_enabled s = true)
  \/ (exists t, active_token s = Some t /\ len t = 8
                /\ claim_enabled s = false).

(** ** Notions used in the statements *)

(** Every stored token can be encoded as UTF-8. *)
Definition token_encodable (s : AMB82Service) : Prop :=
  forall t, active_token s = Some t -> encode t <> None.

(** [needle] occurs in [hay] as a contiguous run of characters. *)
Definition substring (needle hay : str) : Prop :=
  exists pre post, hay = pre ++ needle ++ post.

(** An optional argument as the [if arg:] tests see it: [None] and the
    empty string both count as not given. *)
Definition given (x : option str) : option str :=
  if truthy x then x else None.

(** The network command as the interface description words it:
    comma-delimited [token[,ssid[,password]]], a field being appended
    when it is present. *)
Definition spec_payload (token : str) (new_ssid password : option str)
  : str :=
  match new_ssid with
  | None => token
  | Some n =>
    token ++ lit "," ++ n
    ++ match password with
       | None => []
       | Some p => lit "," ++ p
       end
  end.

(** The last line of the log. *)
Definition last_log (s : AMB82Service) : option LogMsg :=
  last (map Some (log_messages s)) None.

(** A code point the UTF-8 encoder accepts. *)
Definition scalar (c : N) : Prop := encode_point c <> None.

(** The token and clock reading an operation hands to [_is_token_valid]
    before doing anything else, for the three token-gated methods. *)
Definition gate_of (op : Op) : option (option str * Z) :=
  match op with
  | OpHold tok t _ _ | OpWipe tok t _ _ => Some (tok, t)
  | OpSsid tok _ _ t _ _ => Some (tok, t)
  | _ => None
  end.

(** The payload an operation delivers to a notification handler. *)
Definition notified (op : Op) : option bytes :=
  match op with
  | OpStatusNotification d | OpSsidNotification d => Some d
  | _ => None
  end.

(** ** Sample objects *)

(** A connected service with all six characteristics discovered. *)
Definition sample_link : Op :=
  OpLink (Some (mkClient true []))
    (Some (mkChar "A4955678-C5B1-4B44-B512-1370F02D74D1" ["read"%string]))
    (Some (mkChar "A4955678-C5B1-4B44-B512-1370F02D74D2" ["write"%string]))
    (Some (mkChar "A4955678-C5B1-4B44-B512-1370F02D74D3" ["write"%string]))
    (Some (mkChar "A4955678-C5B1-4B44-B512-1370F02D74D4"
             ["read"%string; "notify"%string]))
    (Some (mkChar "A4955678-C5B1-4B44-B512-1370F02D74D5" ["write"%string]))
    (Some (mkChar "A4955678-C5B1-4B44-B512-1370F02D74D6"
             ["read"%string; "notify"%string])).

Definition sample_token : str := lit "AbC123Xy".

Definition connected : AMB82Service := after sample_link init.

(** [connected] after a claim at time 0 that read ["AbC123Xy"]. *)
Definition holding : AMB82Service :=
  after (OpClaim 0 (Return (blit "AbC123Xy")) 0) connected.

(** ** Further notions used in the statements *)

(** What a token-gated method may do to the lease: nothing at all, or,
    when it returned [True], move [last_hold_time] to the clock reading
    taken after the write. *)
Definition renewal_only (s : AMB82Service) (t_done : Z)
  (r : Res bool * AMB82Service) : Prop :=
  active_token (snd r) = active_token s
  /\ claim_enabled (snd r) = claim_enabled s
  /\ status (snd r) = status s
  /\ current_ssid (snd r) = current_ssid s
  /\ (last_hold_time (snd r) = last_hold_time s
      \/ (fst r = Return true /\ last_hold_time (snd r) = t_done)).

(** Between [s] and [s'] exactly one request went out through the
    client: a write of [data], with response, to characteristic [ch]. *)
Definition wrote_once (s s' : AMB82Service) (ch : option Characteristic)
  (data : bytes) : Prop :=
  exists cl c,
    client s = Some cl /\ ch = Some c
    /\ client s'
       = Some (mkClient (is_connected cl)
                 (WriteChar (uuid c) data true :: gatt_calls cl)).

(** Between [s] and [s'] exactly one request went out through the
    client: a read of characteristic [ch]. *)
Definition read_once (s s' : AMB82Service) (ch : option Characteristic)
  : Prop :=
  exists cl c,
    client s = Some cl /\ ch = Some c
    /\ client s'
       = Some (mkClient (is_connected cl) (ReadChar (uuid c) :: gatt_calls cl)).

(** The marker test of the status handler on a raw payload. *)
Definition carries_marker (data : bytes) : bool :=
  match decode data with
  | Some text =>
    contains (strip text) (lit "Expired") || contains (strip text) (lit "Reset")
  | None => false
  end.

(** Operations other than [reset] and a status notification carrying an
    expiry or reset marker. *)
Definition keeps_token (op : Op) : bool :=
  match op with
  | OpReset => false
  | OpStatusNotification d => negb (carries_marker d)
  | _ => true
  end.

(** The ways a pass-through read of characteristic [ch] into attribute
    [field] can end, given the state [s] before, the completion [rd] of
    the GATT read and the result [r]:
    - not connected or no handle: ["Error"], nothing requested;
    - the handle lacks the ["read"] property: ["Error: Not readable"],
      nothing requested;
    - the read was requested and failed, or its payload is not UTF-8:
      ["Error"], attribute untouched;
    - the read was requested and its payload decodes: the stripped text
      is stored and returned. *)
Definition read_outcome (s : AMB82Service) (ch : option Characteristic)
  (field : AMB82Service -> str) (rd : Res bytes)
  (r : Res str * AMB82Service) : Prop :=
  (not_ready s ch = true
   /\ fst r = Return (lit "Error")
   /\ field (snd r) = field s /\ client (snd r) = client s)
  \/ (not_ready s ch = false
      /\ (exists c, ch = Some c /\ has_property "read" c = false)
      /\ fst r = Return (lit "Error: Not readable")
      /\ field (snd r) = field s /\ client (snd r) = client s)
  \/ (not_ready s ch = false
      /\ (exists c, ch = Some c /\ has_property "read" c = true)
      /\ read_once s (snd r) ch
      /\ ((exists b text,
             rd = Return b /\ decode b = Some text
             /\ fst r = Return (strip text) /\ field (snd r) = strip text)
          \/ (((exists e, rd = Raise e)
               \/ (exists b, rd = Return b /\ decode b = None))
              /\ fst r = Return (lit "Error")
              /\ field (snd r) = field s))).

(** ** Connection and subscriptions

    The remaining attributes of the service object ([address] and the
    two notification handlers) and the methods that use them.  The
    scanner, the client's [connect], [disconnect], [start_notify] and
    [stop_notify], and the service table are answered by the
    environment, like the GATT reads and writes above. *)

Definition AMB82_SERVICE_UUID : string :=
  "A4951234-C5B1-4B44-B512-1370F02D74DE".
Definition CLAIM_CHAR_UUID : string :=
  "A4955678-C5B1-4B44-B512-1370F02D74D1".
Definition HOLD_CHAR_UUID : string :=
  "A4955678-C5B1-4B44-B512-1370F02D74D2".
Definition SSID_CONTROL_CHAR_UUID : string :=
  "A4955678-C5B1-4B44-B512-1370F02D74D3".
Definition CURRENT_SSID_CHAR_UUID : string :=
  "A4955678-C5B1-4B44-B512-1370F02D74D4".
Definition WIPE_CHAR_UUID : string :=
  "A4955678-C5B1-4B44-B512-1370F02D74D5".
Definition STATUS_CHAR_UUID : string :=
  "A4955678-C5B1-4B44-B512-1370F02D74D6".
Definition DEVICE_NAME : str := lit "Bullsi".

(** A device reported by the scanner; its name may be [None]. *)
Module Device.
Record t := mk {
  name : option str;
  address : string
}.
End Device.

(** A callable registered for notifications: one of the two default
    handlers of the class, or a callback supplied by the caller. *)
Inductive Callback :=
| DefaultStatusHandler
| DefaultSsidHandler
| UserCallback (id : string).

(** Requests to the client other than GATT reads and writes. *)
Inductive ClientCall :=
| CallConnect
| CallDisconnect
| CallStartNotify (uuid : string) (cb : option Callback)
| CallStopNotify (uuid : string).

(** The service table of a connected client, as far as
    [_discover_characteristics] consults it. *)
Record GattService := mkGattService {
  service_uuid : string;
  get_characteristic : string -> Res (option Characteristic)
}.

Record GattServices := mkGattServices {
  get_service : string -> Res (option GattService);
  service_uuids : list string
}.

(** The whole object: the attributes modelled so far, the address of
    the device, the two registered handlers, and the requests of the
    kinds above issued so far, most recent first. *)
Record Session := mkSession {
  svc : AMB82Service;
  address : option string;
  _status_notification_handler : option Callback;
  _ssid_notification_handler : option Callback;
  client_calls : list ClientCall
}.

Definition MS (A : Type) : Type := Session -> Res A * Session.

Definition ret_s {A} (a : A) : MS A := fun x => (Return a, x).
Definition raise_s {A} (e : PyExc) : MS A := fun x => (Raise e, x).
Definition bind_s {A B} (c : MS A) (k : A -> MS B) : MS B :=
  fun x => match c x with
           | (Return a, x') => k a x'
           | (Raise e, x') => (Raise e, x')
           end.
Definition get_s : MS Session := fun x => (Return x, x).
Definition modify_s (f : Session -> Session) : MS unit :=
  fun x => (Return tt, f x).
Definition try_except_s {A} (body : MS A) (handler : PyExc -> MS A) : MS A :=
  fun x => match body x with
           | (Return a, x') => (Return a, x')
           | (Raise e, x') => handler e x'
           end.

Definition set_svc (v : AMB82Service) (x : Session) :=
  mkSession v (address x) (_status_notification_handler x)
    (_ssid_notification_handler x) (client_calls x).
Definition set_address (v : option string) (x : Session) :=
  mkSession (svc x) v (_status_notification_handler x)
    (_ssid_notification_handler x) (client_calls x).
Definition set_status_notification_handler (v : option Callback)
  (x : Session) :=
  mkSession (svc x) (address x) v (_ssid_notification_handler x)
    (client_calls x).
Definition set_ssid_notification_handler (v : option Callback)
  (x : Session) :=
  mkSession (svc x) (address x) (_status_notification_handler x) v
    (client_calls x).
Definition set_client_calls (v : list ClientCall) (x : Session) :=
  mkSession (svc x) (address x) (_status_notification_handler x)
    (_ssid_notification_handler x) v.

(** A method of the part modelled so far, run on the whole object. *)
Definition lift {A} (c : M A) : MS A :=
  fun x => let (r, s) := c (svc x) in (r, set_svc s x).

Declare Scope session_scope.
Delimit Scope session_scope with session.
Notation "x <- c ;; k" := (bind_s c (fun x => k))
  (at level 61, c at next level, right associativity) : session_scope.
Notation "c ;; k" := (bind_s c (fun _ => k))
  (at level 61, right associativity) : session_scope.
Open Scope session_scope.

Definition set_claim_char (v : option Characteristic) (s : AMB82Service) :=
  mkService (client s) (log_messages s) (active_token s) (last_hold_time s)
    (claim_enabled s) (current_ssid s) (status s) v
    (_hold_char s) (_ssid_control_char s) (_current_ssid_char s)
    (_wipe_char s) (_status_char s).
Definition set_hold_char (v : option Characteristic) (s : AMB82Service) :=
  mkService (client s) (log_messages s) (active_token s) (last_hold_time s)
    (claim_enabled s) (current_ssid s) (status s) (_claim_char s)
    v (_ssid_control_char s) (_current_ssid_char s)
    (_wipe_char s) (_status_char s).
Definition set_ssid_control_char (v : option Characteristic)
  (s : AMB82Service) :=
  mkService (client s) (log_messages s) (active_token s) (last_hold_time s)
    (claim_enabled s) (current_ssid s) (status s) (_claim_char s)
    (_hold_char s) v (_current_ssid_char s)
    (_wipe_char s) (_status_char s).
Definition set_current_ssid_char (v : option Characteristic)
  (s : AMB82Service) :=
  mkService (client s) (log_messages s) (active_token s) (last_hold_time s)
    (claim_enabled s) (current_ssid s) (status s) (_claim_char s)
    (_hold_char s) (_ssid_control_char s) v
    (_wipe_char s) (_status_char s).
Definition set_wipe_char (v : option Characteristic) (s : AMB82Service) :=
  mkService (client s) (log_messages s) (active_token s) (last_hold_time s)
    (claim_enabled s) (current_ssid s) (status s) (_claim_char s)
    (_hold_char s) (_ssid_control_char s) (_current_ssid_char s)
    v (_status_char s).
Definition set_status_char (v : option Characteristic) (s : AMB82Service) :=
  mkService (client s) (log_messages s) (active_token s) (last_hold_time s)
    (claim_enabled s) (current_ssid s) (status s) (_claim_char s)
    (_hold_char s) (_ssid_control_char s) (_current_ssid_char s)
    (_wipe_char s) v.

Definition log_s (m : LogMsg) : MS unit := lift (_log m).

Definition record_client_call (c : ClientCall) : MS unit :=
  modify_s (fun x => set_client_calls (c :: client_calls x) x).

(** [await <request>], completing as [r] says. *)
Definition await {A} (r : Res A) : MS A :=
  match r with Return a => ret_s a | Raise e => raise_s e end.

(** [self.client and self.client.is_connected] *)
Definition client_connected (s : AMB82Service) : bool :=
  match client s with
  | Some c => is_connected c
  | None => false
  end.

(** [device.name == DEVICE_NAME] *)
Definition is_target (d : Device.t) : bool :=
  opt_str_eqb (Device.name d) (Some DEVICE_NAME).

Definition _find_device (scan : Res (list Device.t)) : MS (option string) :=
  log_s (Msg "Scanning for device: {DEVICE_NAME}..." [AStr DEVICE_NAME]) ;;
  devices <- await scan ;;
  match find is_target devices with
  | Some device =>
    log_s (Msg "Found device: {device.name} ({device.address})"
               [ATok (Device.name device);
                AStr (lit (Device.address device))]) ;;
    ret_s (Some (Device.address device))
  | None =>
    log_s (Msg "Device {DEVICE_NAME} not found." [AStr DEVICE_NAME]) ;;
    ret_s None
  end.

(** [if <char>: self._log(f" Found ...: {<char>.uuid}")] *)
Definition log_found (template : string) (ch : option Characteristic)
  : MS unit :=
  match ch with
  | Some c => log_s (Msg template [AStr (lit (uuid c))])
  | None => ret_s tt
  end.

Definition is_some {A} (o : option A) : bool :=
  match o with Some _ => true | None => false end.

Definition _discover_characteristics (services : Res GattServices)
  : MS unit :=
  x <- get_s ;;
  if negb (client_connected (svc x)) then
    log_s (Msg "Cannot discover characteristics: Not connected." [])
  else
    log_s (Msg "Discovering services and characteristics..." []) ;;
    try_except_s
      (svcs <- await services ;;
       amb_service <- await (get_service svcs AMB82_SERVICE_UUID) ;;
       match amb_service with
       | None =>
         log_s (Msg "Service {AMB82_SERVICE_UUID} not found."
                    [AStr (lit AMB82_SERVICE_UUID)]) ;;
         fold_left
           (fun acc u =>
              acc ;; log_s (Msg " Found service: {service.uuid}"
                                [AStr (lit u)]))
           (service_uuids svcs) (ret_s tt)
       | Some amb =>
         log_s (Msg "Found service: {amb_service.uuid}"
                    [AStr (lit (service_uuid amb))]) ;;
         c <- await (get_characteristic amb CLAIM_CHAR_UUID) ;;
         lift (modify (set_claim_char c)) ;;
         c <- await (get_characteristic amb HOLD_CHAR_UUID) ;;
         lift (modify (set_hold_char c)) ;;
         c <- await (get_characteristic amb SSID_CONTROL_CHAR_UUID) ;;
         lift (modify (set_ssid_control_char c)) ;;
         c <- await (get_characteristic amb CURRENT_SSID_CHAR_UUID) ;;
         lift (modify (set_current_ssid_char c)) ;;
         c <- await (get_characteristic amb WIPE_CHAR_UUID) ;;
         lift (modify (set_wipe_char c)) ;;
         c <- await (get_characteristic amb STATUS_CHAR_UUID) ;;
         lift (modify (set_status_char c)) ;;
         x <- get_s ;;
         log_found " Found Claim Char: {self._claim_char.uuid}"
           (_claim_char (svc x)) ;;
         log_found " Found Hold Char: {self._hold_char.uuid}"
           (_hold_char (svc x)) ;;
         log_found " Found SSID Control Char: {self._ssid_control_char.uuid}"
           (_ssid_control_char (svc x)) ;;
         log_found " Found Current SSID Char: {self._current_ssid_char.uuid}"
           (_current_ssid_char (svc x)) ;;
         log_found " Found Wipe Char: {self._wipe_char.uuid}"
           (_wipe_char (svc x)) ;;
         log_found " Found Status Char: {self._status_char.uuid}"
           (_status_char (svc x)) ;;
         if negb (is_some (_claim_char (svc x))
                  && is_some (_hold_char (svc x))
                  && is_some (_ssid_control_char (svc x))
                  && is_some (_current_ssid_char (svc x))
                  && is_some (_wipe_char (svc x))
                  && is_some (_status_char (svc x)))
         then
           log_s (Msg "Warning: Not all expected characteristics were found."
                      [])
         else ret_s tt
       end)
      (fun e =>
         if is_BleakError e then
           log_s (Msg "Error discovering characteristics: {e}" [AExc e])
         else
           log_s (Msg "An unexpected error occurred during characteristic discovery: {e}"
                      [AExc e])).

(** [callback or <default handler>] *)
Definition or_default (callback : option Callback) (dflt : Callback)
  : Callback :=
  match callback with Some cb => cb | None => dflt end.

(** [self.client.start_notify(u, cb)] and [self.client.stop_notify(u)] *)
Definition start_notify (u : string) (cb : option Callback) (r : Res unit)
  : MS unit :=
  record_client_call (CallStartNotify u cb) ;; await r.

Definition stop_notify (u : string) (r : Res unit) : MS unit :=
  record_client_call (CallStopNotify u) ;; await r.

Definition start_status_notifications (callback : option Callback)
  (r : Res unit) : MS bool :=
  x <- get_s ;;
  if not_ready (svc x) (_status_char (svc x)) then
    log_s (Msg "Start Status Notify failed: Not connected or characteristic not found."
               []) ;;
    ret_s false
  else
    unsupported <- lift (lacks "notify" (_status_char (svc x))) ;;
    if (unsupported : bool) then
      log_s (Msg "Start Status Notify failed: Characteristic does not support notify."
                 []) ;;
      ret_s false
    else
      modify_s (set_status_notification_handler
                  (Some (or_default callback DefaultStatusHandler))) ;;
      log_s (Msg "Starting status notifications..." []) ;;
      try_except_s
        (x <- get_s ;;
         u <- lift (uuid_of (_status_char (svc x))) ;;
         start_notify u (_status_notification_handler x) r ;;
         log_s (Msg "Status notifications started." []) ;;
         ret_s true)
        (fun e =>
           if is_BleakError e then
             log_s (Msg "Failed to start status notifications: {e}"
                        [AExc e]) ;;
             ret_s false
           else
             log_s (Msg "Unexpected error starting status notifications: {e}"
                        [AExc e]) ;;
             ret_s false).

Definition stop_status_notifications (r : Res unit) : MS bool :=
  x <- get_s ;;
  if not_ready (svc x) (_status_char (svc x))
     || negb (is_some (_status_notification_handler x))
  then
    log_s (Msg "Stop Status Notify failed: Not connected, characteristic not found, or notifications not started."
               []) ;;
    ret_s false
  else
    log_s (Msg "Stopping status notifications..." []) ;;
    try_except_s
      (x <- get_s ;;
       u <- lift (uuid_of (_status_char (svc x))) ;;
       stop_notify u r ;;
       log_s (Msg "Status notifications stopped." []) ;;
       modify_s (set_status_notification_handler None) ;;
       ret_s true)
      (fun e =>
         if is_BleakError e then
           log_s (Msg "Failed to stop status notifications: {e}" [AExc e]) ;;
           ret_s false
         else
           log_s (Msg "Unexpected error stopping status notifications: {e}"
                      [AExc e]) ;;
           ret_s false).

Definition start_ssid_notifications (callback : option Callback)
  (r : Res unit) : MS bool :=
  x <- get_s ;;
  if not_ready (svc x) (_current_ssid_char (svc x)) then
    log_s (Msg "Start SSID Notify failed: Not connected or characteristic not found."
               []) ;;
    ret_s false
  else
    unsupported <- lift (lacks "notify" (_current_ssid_char (svc x))) ;;
    if (unsupported : bool) then
      log_s (Msg "Start SSID Notify failed: Characteristic does not support notify."
                 []) ;;
      ret_s false
    else
      modify_s (set_ssid_notification_handler
                  (Some (or_default callback DefaultSsidHandler))) ;;
      log_s (Msg "Starting current SSID notifications..." []) ;;
      try_except_s
        (x <- get_s ;;
         u <- lift (uuid_of (_current_ssid_char (svc x))) ;;
         start_notify u (_ssid_notification_handler x) r ;;
         log_s (Msg "Current SSID notifications started." []) ;;
         ret_s true)
        (fun e =>
           if is_BleakError e then
             log_s (Msg "Failed to start current SSID notifications: {e}"
                        [AExc e]) ;;
             ret_s false
           else
             log_s (Msg "Unexpected error starting SSID notifications: {e}"
                        [AExc e]) ;;
             ret_s false).

Definition stop_ssid_notifications (r : Res unit) : MS bool :=
  x <- get_s ;;
  if not_ready (svc x) (_current_ssid_char (svc x))
     || negb (is_some (_ssid_notification_handler x))
  then
    log_s (Msg "Stop SSID Notify failed: Not connected, characteristic not found, or notifications not started."
               []) ;;
    ret_s false
  else
    log_s (Msg "Stopping current SSID notifications..." []) ;;
    try_except_s
      (x <- get_s ;;
       u <- lift (uuid_of (_current_ssid_char (svc x))) ;;
       stop_notify u r ;;
       log_s (Msg "Current SSID notifications stopped." []) ;;
       modify_s (set_ssid_notification_handler None) ;;
       ret_s true)
      (fun e =>
         if is_BleakError e then
           log_s (Msg "Failed to stop current SSID notifications: {e}"
                      [AExc e]) ;;
           ret_s false
         else
           log_s (Msg "Unexpected error stopping SSID notifications: {e}"
                      [AExc e]) ;;
           ret_s false).

(** [BleakClient(self.address, loop=self.loop)]: a client that is not
    connected and has issued nothing. *)
Definition new_client : BleakClient := mkClient false [].

Definition mark_connected (b : bool) (s : AMB82Service) : AMB82Service :=
  match client s with
  | Some c => set_client (Some (mkClient b (gatt_calls c))) s
  | None => s
  end.

(** [await self.client.connect()]: when it returns, the client reads as
    connected. *)
Definition client_connect (r : Res unit) : MS unit :=
  record_client_call CallConnect ;;
  await r ;;
  lift (modify (mark_connected true)).

(** [await self.client.disconnect()] *)
Definition client_disconnect (r : Res unit) : MS unit :=
  record_client_call CallDisconnect ;;
  await r ;;
  lift (modify (mark_connected false)).

(** Truth value of [self.address]. *)
Definition truthy_address (a : option string) : bool :=
  match a with
  | None | Some EmptyString => false
  | Some (String _ _) => true
  end.

Definition address_text (a : option string) : option str :=
  option_map lit a.

Definition connect (scan : Res (list Device.t)) (conn : Res unit)
  (services : Res GattServices) (sub_status sub_ssid disc : Res unit)
  : MS bool :=
  x <- get_s ;;
  if client_connected (svc x) then
    log_s (Msg "Already connected." []) ;;
    ret_s true
  else
    a <- _find_device scan ;;
    modify_s (set_address a) ;;
    x <- get_s ;;
    if negb (truthy_address (address x)) then ret_s false
    else
      lift (modify (set_client (Some new_client))) ;;
      try_except_s
        (x <- get_s ;;
         log_s (Msg "Attempting to connect to {self.address}..."
                    [ATok (address_text (address x))]) ;;
         client_connect conn ;;
         log_s (Msg "Successfully connected." []) ;;
         _discover_characteristics services ;;
         x <- get_s ;;
         (if is_some (_status_char (svc x))
          then start_status_notifications (Some DefaultStatusHandler)
                 sub_status ;; ret_s tt
          else ret_s tt) ;;
         x <- get_s ;;
         (if is_some (_current_ssid_char (svc x))
          then start_ssid_notifications (Some DefaultSsidHandler)
                 sub_ssid ;; ret_s tt
          else ret_s tt) ;;
         ret_s true)
        (fun e =>
           if is_BleakError e then
             log_s (Msg "Connection failed: {e}" [AExc e]) ;;
             lift (modify (set_client None)) ;;
             ret_s false
           else
             log_s (Msg "An unexpected error occurred during connection. Type: {type(e)}, Repr: {repr(e)}, Message: {e}"
                        [AExc e; AExc e; AExc e]) ;;
             x <- get_s ;;
             (if client_connected (svc x) then client_disconnect disc
              else ret_s tt) ;;
             lift (modify (set_client None)) ;;
             ret_s false).

Definition disconnect (disc : Res unit) : MS unit :=
  x <- get_s ;;
  (if client_connected (svc x) then
     log_s (Msg "Disconnecting..." []) ;;
     client_disconnect disc ;;
     log_s (Msg "Disconnected." [])
   else log_s (Msg "Not connected." [])) ;;
  lift (modify (set_client None)) ;;
  lift reset_state.

Close Scope session_scope.

(** The object [__init__] returns. *)
Definition init_session : Session := mkSession init None None None [].

(** What can happen to the whole object. *)
Inductive SOp :=
| SCore (op : Op)
| SConnect (scan : Res (list Device.t)) (conn : Res unit)
    (services : Res GattServices) (sub_status sub_ssid disc : Res unit)
| SDisconnect (disc : Res unit)
| SDiscover (services : Res GattServices)
| SStartStatus (callback : option Callback) (r : Res unit)
| SStopStatus (r : Res unit)
| SStartSsid (callback : option Callback) (r : Res unit)
| SStopSsid (r : Res unit).

Definition after_s (op : SOp) (x : Session) : Session :=
  match op with
  | SCore o => set_svc (after o (svc x)) x
  | SConnect scan conn services s1 s2 d =>
    snd (connect scan conn services s1 s2 d x)
  | SDisconnect d => snd (disconnect d x)
  | SDiscover services => snd (_discover_characteristics services x)
  | SStartStatus cb r => snd (start_status_notifications cb r x)
  | SStopStatus r => snd (stop_status_notifications r x)
  | SStartSsid cb r => snd (start_ssid_notifications cb r x)
  | SStopSsid r => snd (stop_ssid_notifications r x)
  end.

Definition run_s (ops : list SOp) (x : Session) : Session :=
  fold_left (fun acc op => after_s op acc) ops x.

(** [c] leaves the observation [f] of the object as it was, whether it
    returns or raises. *)
Definition keeps {A B} (f : Session -> B) (c : MS A) : Prop :=
  forall x, f (snd (c x)) = f x.

(** [c] always returns. *)
Definition returns {A} (c : MS A) : Prop :=
  forall x, exists a, fst (c x) = Return a.

(** The lease and peripheral attributes of the whole object. *)
Definition guarded (x : Session)
  : option str * Z * bool * str * str :=
  (lease (svc x), status (svc x), current_ssid (svc x)).

(** The six characteristic handles. *)
Definition handles (x : Session) : list (option Characteristic) :=
  [_claim_char (svc x); _hold_char (svc x); _ssid_control_char (svc x);
   _current_ssid_char (svc x); _wipe_char (svc x); _status_char (svc x)].

(** Everything but the log and the characteristic handles. *)
Definition outside_discovery (x : Session) :=
  (client (svc x), guarded x, address x, _status_notification_handler x,
   _ssid_notification_handler x, client_calls x).

(** Everything in the object but the log, the two handlers and the
    list of client requests. *)
Definition outside_subscription (x : Session) :=
  (client (svc x), guarded x, handles x, address x).

(** The lease and peripheral attributes as [reset_state] leaves them. *)
Definition guarded_defaults : option str * Z * bool * str * str :=
  ((None, 0, true), lit "Idle", lit "N/A").

Definition handlers (x : Session) : option Callback * option Callback :=
  (_status_notification_handler x, _ssid_notification_handler x).

(** *** Statements about a start/stop pair

    [start] and [stop] are the two methods, [ch] the characteristic
    they use, [h] the handler attribute they maintain and [dflt] the
    default handler. *)

(** A call that is refused: it returns [False], issues no request and
    leaves the handler attribute alone. *)
Definition refused (h : Session -> option Callback) (x : Session)
  (r : Res bool * Session) : Prop :=
  fst r = Return false /\ h (snd r) = h x
  /\ client_calls (snd r) = client_calls x.

Definition refuses_when_not_applicable
  (start : option Callback -> Res unit -> MS bool)
  (stop : Res unit -> MS bool)
  (ch : Session -> option Characteristic)
  (h : Session -> option Callback) : Prop :=
  forall x cb r,
    (h x = None -> refused h x (stop r x))
    /\ (not_ready (svc x) (ch x) = true ->
        refused h x (stop r x) /\ refused h x (start cb r x))
    /\ (forall c, ch x = Some c -> has_property "notify" c = false ->
        refused h x (start cb r x)).

Definition registers_before_subscribing
  (start : option Callback -> Res unit -> MS bool)
  (stop : Res unit -> MS bool)
  (ch : Session -> option Characteristic)
  (h : Session -> option Callback) (dflt : Callback) : Prop :=
  forall x cb r c,
    not_ready (svc x) (ch x) = false -> ch x = Some c ->
    has_property "notify" c = true ->
    h (snd (start cb r x)) = Some (or_default cb dflt)
    /\ client_calls (snd (start cb r x))
       = CallStartNotify (uuid c) (Some (or_default cb dflt))
           :: client_calls x
    /\ fst (start cb r x)
       = Return (match r with Return _ => true | Raise _ => false end)
    /\ forall r',
         client_calls (snd (stop r' (snd (start cb r x))))
         = CallStopNotify (uuid c) :: client_calls (snd (start cb r x)).

Definition unregisters_only_on_success
  (stop : Res unit -> MS bool)
  (ch : Session -> option Characteristic)
  (h : Session -> option Callback) : Prop :=
  forall x r c cb0,
    not_ready (svc x) (ch x) = false -> ch x = Some c -> h x = Some cb0 ->
    client_calls (snd (stop r x)) = CallStopNotify (uuid c) :: client_calls x
    /\ match r with
       | Return _ => fst (stop r x) = Return true /\ h (snd (stop r x)) = None
       | Raise _ =>
         fst (stop r x) = Return false /\ h (snd (stop r x)) = Some cb0
       end.

Definition status_char_of (x : Session) : option Characteristic :=
  _status_char (svc x).
Definition current_ssid_char_of (x : Session) : option Characteristic :=
  _current_ssid_char (svc x).

(** A connected object with all six characteristics discovered. *)
Definition linked_session : Session := after_s (SCore sample_link) init_session.

(** Everything in the object but the log. *)
Definition outside_log (x : Session) :=
  (outside_subscription x, _status_notification_handler x,
   _ssid_notification_handler x, client_calls x).

(** No device of the list carries the target name. *)
Definition none_named (devices : list Device.t) : Prop :=
  Forall (fun d => Device.name d <> Some DEVICE_NAME) devices.

(** The handles after looking the characteristics up one after the
    other: each lookup that returns replaces its handle, and the first
    lookup that raises ends the sequence, leaving the remaining handles
    as they were. *)
Fixpoint lookup_all (get : string -> Res (option Characteristic))
  (uuids : list string) (old : list (option Characteristic))
  : list (option Characteristic) :=
  match uuids, old with
  | u :: us, o :: os =>
    match get u with
    | Return c => c :: lookup_all get us os
    | Raise _ => o :: os
    end
  | _, _ => old
  end.

Definition CHAR_UUIDS : list string :=
  [CLAIM_CHAR_UUID; HOLD_CHAR_UUID; SSID_CONTROL_CHAR_UUID;
   CURRENT_SSID_CHAR_UUID; WIPE_CHAR_UUID; STATUS_CHAR_UUID].

(** A service table holding the AMB82 service with every
    characteristic, each readable, writable and notifying. *)
Definition sample_gatt_service : GattService :=
  mkGattService AMB82_SERVICE_UUID
    (fun u => Return (Some (mkChar u ["read"; "write"; "notify"]%string))).

Definition sample_services : GattServices :=
  mkGattServices (fun _ => Return (Some sample_gatt_service))
    [AMB82_SERVICE_UUID].

(** A scan that reports an unnamed device, then the target. *)
Definition sample_scan : list Device.t :=
  [Device.mk None "11:22:33:44:55:66";
   Device.mk (Some (lit "Bullsi")) "AA:BB:CC:DD:EE:FF"].

(** ** Token generation *)

(** [string.ascii_letters] and [string.digits]. *)
Definition ascii_letters : str :=
  lit "abcdefghijklmnopqrstuvwxyzABCDEFGHIJKLMNOPQRSTUVWXYZ".
Definition digits : str := lit "0123456789".

(** [random.choices(population, k=k)]: the [j]-th element is the one at
    the index the [j]-th draw selects ([draw j] stands for
    [floor(random() * len(population))]). *)
Definition choices (population : str) (k : nat) (draw : nat -> nat) : str :=
  map (fun j => nth (draw j) population 0%N) (seq 0 k).

(** [''.join(random.choices(string.ascii_letters + string.digits,
    k=TOKEN_LENGTH))] *)
Definition _generate_token (draw : nat -> nat) : str :=
  choices (ascii_letters ++ digits)
    (match lookup "TOKEN_LENGTH" module_globals with
     | Some k => Z.to_nat k
     | None => 0
     end)
    draw.

(** Letters and digits of the ASCII range. *)
Definition alnum (c : N) : bool :=
  between 48 57 c || between 65 90 c || between 97 122 c.

(** ** The example run

    [main] drives one service object through a fixed scenario and
    prints as it goes.  Its standard output is modelled by the lines
    [main] itself prints (the copies of the log lines that [_log] also
    prints are left out); everything the environment decides during the
    run is collected in a [Demo] record: the answers to the requests,
    the clock readings, and the notifications the event loop delivers
    while [main] is suspended.  Notifications that arrive during an
    awaited call are handed to the handlers when the call has
    returned.  The printed texts are the string literals as the source
    writes them. *)

Inductive Notification :=
| StatusNotification (data : bytes)
| SsidNotification (data : bytes).

(** The event loop calls the handler held for the characteristic, if
    there is one.  A callback supplied by the caller is outside the
    class and is taken to leave the object alone. *)
Definition run_callback (cb : option Callback) (data : bytes) : MS unit :=
  match cb with
  | Some DefaultStatusHandler => lift (_default_status_handler data)
  | Some DefaultSsidHandler => lift (_default_ssid_handler data)
  | Some (UserCallback _) | None => ret_s tt
  end.

Definition notify (n : Notification) : MS unit :=
  fun x =>
    match n with
    | StatusNotification data =>
      run_callback (_status_notification_handler x) data x
    | SsidNotification data =>
      run_callback (_ssid_notification_handler x) data x
    end.

Inductive Printed :=
| Line (text : string)
| LineToken (template : string) (token : option str)
| LineBool (template : string) (b : bool)
| LineState (v : StateView)
| LineExc (template : string) (e : PyExc).

Record Demo := mkDemo {
  d_scan : Res (list Device.t);
  d_connect : Res unit;
  d_services : Res GattServices;
  d_subscribe_status : Res unit;
  d_subscribe_ssid : Res unit;
  d_abort_disconnect : Res unit;
  d_now_initial : Z;
  d_read_status : Res bytes;
  d_read_ssid : Res bytes;
  d_now_after_reads : Z;
  d_claim_check : Z;
  d_claim_read : Res bytes;
  d_claim_done : Z;
  d_now_after_claim : Z;
  d_hold_check : Z;
  d_hold_write : Res unit;
  d_hold_done : Z;
  d_now_after_hold : Z;
  d_now_after_sleep : Z;
  d_hold2_check : Z;
  d_hold2_write : Res unit;
  d_hold2_done : Z;
  d_claim2_check : Z;
  d_claim2_read : Res bytes;
  d_claim2_done : Z;
  d_now_after_claim2 : Z;
  d_wipe_check : Z;
  d_wipe_write : Res unit;
  d_wipe_done : Z;
  d_now_after_wipe : Z;
  d_disconnect : Res unit;
  d_notifications : nat -> list Notification
}.

(** The service object together with what has been printed so far,
    oldest line first. *)
Definition MP (A : Type) : Type :=
  Session * list Printed -> Res A * (Session * list Printed).

Definition ret_p {A} (a : A) : MP A := fun w => (Return a, w).
Definition bind_p {A B} (c : MP A) (k : A -> MP B) : MP B :=
  fun w => match c w with
           | (Return a, w') => k a w'
           | (Raise e, w') => (Raise e, w')
           end.

(** [print(...)] *)
Definition print (l : Printed) : MP unit :=
  fun w => (Return tt, (fst w, snd w ++ [l])).

(** A method call on the service object. *)
Definition call {A} (c : MS A) : MP A :=
  fun w => let (r, x) := c (fst w) in (r, (x, snd w)).

(** The handlers run one after the other; what a handler raises is
    reported by the event loop and does not reach [main]. *)
Definition deliver (ns : list Notification) : MP unit :=
  fun w =>
    (Return tt, (fold_left (fun x n => snd (notify n x)) ns (fst w), snd w)).

(** [try: body  except Exception as e: handler  finally: cleanup] *)
Definition try_except_finally (body : MP unit) (handler : PyExc -> MP unit)
  (cleanup : MP unit) : MP unit :=
  fun w =>
    match body w with
    | (Return a, w') => cleanup w'
    | (Raise e, w') =>
      match handler e w' with
      | (Return a, w'') => cleanup w''
      | (Raise e', w'') =>
        match cleanup w'' with
        | (Return _, w3) => (Raise e', w3)
        | (Raise e'', w3) => (Raise e'', w3)
        end
      end
    end.

Declare Scope demo_scope.
Delimit Scope demo_scope with demo.
Notation "x <- c ;; k" := (bind_p c (fun x => k))
  (at level 61, c at next level, right associativity) : demo_scope.
Notation "c ;; k" := (bind_p c (fun _ => k))
  (at level 61, right associativity) : demo_scope.
Open Scope demo_scope.

(** [print(service.get_state())] *)
Definition print_state (now : Z) : MP unit :=
  v <- call (lift (get_state now)) ;;
  print (LineState v).

Definition main (d : Demo) : MP unit :=
  try_except_finally
    (connected <- call (connect (d_scan d) (d_connect d) (d_services d)
                          (d_subscribe_status d) (d_subscribe_ssid d)
                          (d_abort_disconnect d)) ;;
     deliver (d_notifications d 0) ;;
     if (connected : bool) then
       print (Line "\n--- Connected ---") ;;
       initial_state <- call (lift (get_state (d_now_initial d))) ;;
       print (Line "Initial State:") ;;
       print (LineState initial_state) ;;
       call (lift (read_status (d_read_status d))) ;;
       deliver (d_notifications d 1) ;;
       call (lift (read_current_ssid (d_read_ssid d))) ;;
       deliver (d_notifications d 2) ;;
       print (Line "State after reads:") ;;
       print_state (d_now_after_reads d) ;;
       print (Line "\n--- Attempting Claim ---") ;;
       token <- call (lift (claim (d_claim_check d) (d_claim_read d)
                              (d_claim_done d))) ;;
       deliver (d_notifications d 3) ;;
       if truthy token then
         print (LineToken "Claim successful, token: {token}" token) ;;
         print (Line "State after claim:") ;;
         print_state (d_now_after_claim d) ;;
         print (Line "\n--- Attempting Hold (Valid) ---") ;;
         hold_success <- call (lift (hold token (d_hold_check d)
                                       (d_hold_write d) (d_hold_done d))) ;;
         deliver (d_notifications d 4) ;;
         print (LineBool "Hold result: {hold_success}" hold_success) ;;
         print (Line "State after hold:") ;;
         print_state (d_now_after_hold d) ;;
         print (Line "\n--- Waiting for token expiry (sleep > 3s) ---") ;;
         deliver (d_notifications d 5) ;;
         expiry_wait_state <-
           call (lift (get_state (d_now_after_sleep d))) ;;
         print (Line "State after expiry wait:") ;;
         print (LineState expiry_wait_state) ;;
         print (Line "\n--- Attempting Hold (Expired) ---") ;;
         hold_success_expired <-
           call (lift (hold token (d_hold2_check d) (d_hold2_write d)
                         (d_hold2_done d))) ;;
         deliver (d_notifications d 6) ;;
         print (LineBool "Hold result (expired): {hold_success_expired}"
                  hold_success_expired) ;;
         print (Line "\n--- Attempting Claim Again (should work now) ---") ;;
         new_token <- call (lift (claim (d_claim2_check d) (d_claim2_read d)
                                    (d_claim2_done d))) ;;
         deliver (d_notifications d 7) ;;
         print (LineToken "Second claim result: {new_token}" new_token) ;;
         print (Line "State after second claim:") ;;
         print_state (d_now_after_claim2 d) ;;
         if truthy new_token then
           print (Line "\n--- Attempting Wipe ---") ;;
           wipe_success <- call (lift (wipe new_token (d_wipe_check d)
                                         (d_wipe_write d) (d_wipe_done d))) ;;
           deliver (d_notifications d 8) ;;
           print (LineBool "Wipe result: {wipe_success}" wipe_success) ;;
           print (Line "State after wipe:") ;;
           print_state (d_now_after_wipe d)
         else ret_p tt
       else print (Line "Claim failed.")
     else print (Line "Connection failed."))
    (fun e => print (LineExc "An error occurred in main: {e}" e))
    (fun w =>
       if client_connected (svc (fst w)) then
         (print (Line "\n--- Disconnecting ---") ;;
          call (disconnect (d_disconnect d))) w
       else ret_p tt w).

Close Scope demo_scope.

(** A run during which no notification is delivered. *)
Definition quiet (d : Demo) : Prop :=
  forall k, d_notifications d k = [].

(** What [main] printed, starting from a fresh object and an empty
    output. *)
Definition output (d : Demo) : list Printed :=
  snd (snd (main d (init_session, []))).

(** A run of the example in which every request succeeds, the first
    hold is confirmed at time 2 and the second is attempted at time 7;
    no notification arrives. *)
Definition sample_demo : Demo :=
  mkDemo (Return sample_scan) (Return tt) (Return sample_services)
    (Return tt) (Return tt) (Return tt)
    0 (Return (blit "Idle")) (Return (blit "home")) 0
    0 (Return (blit "AbC123Xy")) 1 1
    2 (Return tt) 2 2
    6
    7 (Return tt) 7
    8 (Return (blit "Zz9Yy8Xx")) 8 8
    9 (Return tt) 9 9
    (Return tt)
    (fun _ => []).

(** The same run, except that a status notification reading "Reset"
    arrives during the sleep. *)
Definition released_demo : Demo :=
  mkDemo (Return sample_scan) (Return tt) (Return sample_services)
    (Return tt) (Return tt) (Return tt)
    0 (Return (blit "Idle")) (Return (blit "home")) 0
    0 (Return (blit "AbC123Xy")) 1 1
    2 (Return tt) 2 2
    6
    7 (Return tt) 7
    8 (Return (blit "Zz9Yy8Xx")) 8 8
    9 (Return tt) 9 9
    (Return tt)
    (fun k => match k with
              | 5%nat => [StatusNotification (blit "Reset")]
              | _ => []
              end).

(** ** What printing a log line needs

    [_log] also hands each line to [print].  A UTF-8 standard output
    with the strict error handler raises [UnicodeEncodeError] for a line
    that holds a lone surrogate; every other line is written.  The texts
    [_log] interpolates are the caller's string arguments, the messages
    of the exceptions the environment raises, and texts the object has
    decoded itself. *)

(** A text without a lone surrogate. *)
Definition encodable (s : str) : bool :=
  match encode s with Some _ => true | None => false end.

(** An argument that is a string or [None]; [None] prints as "None". *)
Definition printable_token (t : option str) : bool :=
  match t with Some s => encodable s | None => true end.

(** The text of an exception.  The exceptions the interpreter raises
    quote what they complain about in escaped form. *)
Definition printable_exc (e : PyExc) : bool :=
  match e with
  | BleakError m | OtherException m => encodable m
  | _ => true
  end.

Definition printable_arg (a : LogArg) : bool :=
  match a with
  | AStr s => encodable s
  | ATok t => printable_token t
  | AExc e => printable_exc e
  end.

(** A line [print] writes without raising. *)
Definition printable (m : LogMsg) : bool :=
  match m with Msg _ args => forallb printable_arg args end.

Definition printable_res {A} (r : Res A) : bool :=
  match r with Return _ => true | Raise e => printable_exc e end.

(** An operation all of whose texts from outside are printable: the
    caller's arguments and the message of the exception the GATT
    request raises, if it raises. *)
Definition printable_op (op : Op) : bool :=
  match op with
  | OpClaim _ rd _ | OpReadCurrentSsid rd | OpReadStatus rd =>
    printable_res rd
  | OpHold tok _ wr _ | OpWipe tok _ wr _ =>
    printable_token tok && printable_res wr
  | OpSsid tok n p _ wr _ =>
    printable_token tok && printable_token n && printable_token p
    && printable_res wr
  | _ => true
  end.

(** Operations on the whole object other than [reset] (which is a call
    of [reset_state] and nothing else), [disconnect] and a status
    notification carrying an expiry or reset marker. *)
Definition keeps_token_s (op : SOp) : bool :=
  match op with
  | SCore o => keeps_token o
  | SDisconnect _ => false
  | _ => true
  end.

(** [linked_session] after a claim at time 0 that read ["AbC123Xy"]. *)
Definition holding_session : Session :=
  after_s (SCore (OpClaim 0 (Return (blit "AbC123Xy")) 0)) linked_session.

(** ** Proof automation *)

Ltac atomic x :=
  lazymatch x with
  | context [match _ with _ => _ end] => fail
  | _ => idtac
  end.

Ltac unfold_m :=
  unfold claim, hold, ssid, wipe, read_current_ssid, read_status,
    _default_status_handler, _default_ssid_handler, get_state, reset,
    reset_state, relink, store_claim, _is_token_valid, lacks,
    encode_token, encode_utf8, decode_strip, write_gatt_char,
    read_gatt_char, record_call, uuid_of, load_global, _log, try_except,
    bind, get, modify, ret, raise in *.

Ltac simp_m :=
  cbn -[decode strip encode contains len lit ssid_payload has_property
        Z.gtb Z.eqb Z.sub Z.le Z.lt Z.ge Z.gt Z.compare] in *.

Ltac case_m :=
  match goal with
  | |- context [match ?x with _ => _ end] =>
    atomic x;
    lazymatch type of x with
    | Z => fail
    | positive => fail
    | N => fail
    | _ => destruct x eqn:?
    end
  end.

Ltac bool_hyps :=
  repeat match goal with
  | H : _ /\ _ |- _ => destruct H
  | H : _ || _ = true |- _ => apply orb_true_iff in H
  | H : _ || _ = false |- _ => apply orb_false_iff in H
  | H : _ && _ = true |- _ => apply andb_true_iff in H
  | H : negb _ = true |- _ => apply negb_true_iff in H
  | H : negb _ = false |- _ => apply negb_false_iff in H
  end.

Ltac run_m := unfold_m; simp_m; repeat (case_m; simp_m).

(** ** Sanity checks of the string model *)

Example decode_ascii : decode (blit "AbC123Xy") = Some (lit "AbC123Xy").
Proof. reflexivity. Qed.

Example decode_two_byte :
  decode [xc3; xa9] = Some [233%N].
Proof. reflexivity. Qed.

Example decode_invalid : decode [xff] = None.
Proof. reflexivity. Qed.

Example decode_overlong : decode [xc0; x80] = None.
Proof. reflexivity. Qed.

Example decode_surrogate : decode [xed; xa0; x80] = None.
Proof. reflexivity. Qed.

Example strip_both : strip (lit "  Reset " ++ [10%N]) = lit "Reset".
Proof. reflexivity. Qed.

Example contains_mid : contains (lit "ResetComplete") (lit "Reset") = true.
Proof. reflexivity. Qed.

Example contains_case : contains (lit "reset") (lit "Reset") = false.
Proof. reflexivity. Qed.

Example encode_decode_sample :
  option_map decode (encode [65; 233; 8364; 128512]%N)
  = Some (Some [65; 233; 8364; 128512]%N).
Proof. reflexivity. Qed.

(** ** Strings *)

Lemma str_eqb_eq a b : str_eqb a b = true <-> a = b.
Proof.
  revert b; induction a as [|x a IH]; intros [|y b]; simpl;
    try (split; (discriminate || reflexivity)).
  rewrite andb_true_iff, N.eqb_eq, IH.
  split; [intros [-> ->]; reflexivity | intros H; inversion H; auto].
Qed.

Lemma str_eqb_refl a : str_eqb a a = true.
Proof. apply str_eqb_eq; reflexivity. Qed.

Lemma opt_str_eqb_eq a b : opt_str_eqb a b = true <-> a = b.
Proof.
  destruct a, b; simpl; try (split; (discriminate || reflexivity)).
  rewrite str_eqb_eq. split; [intros ->; reflexivity | congruence].
Qed.

Lemma len_truthy t : len t = 8 -> truthy (Some t) = true.
Proof. destruct t; [discriminate | reflexivity]. Qed.

(** ** Token validity *)

(** [_is_token_valid] returns [True] exactly for the stored, non-empty
    token whose age is within the expiry duration. *)
Lemma accepted_iff s now token :
  accepted s now token <->
  truthy token = true /\ token = active_token s
  /\ now - last_hold_time s <= 3.
Proof.
  unfold accepted. run_m; bool_hyps.
  - split; [discriminate | intros (Ht & He & _)].
    destruct Heqb as [H | H]; apply negb_true_iff in H; [congruence|].
    apply opt_str_eqb_eq in He. congruence.
  - split; [discriminate | intros (_ & _ & Hd)]. lia.
  - split; [intros _ | reflexivity].
    apply opt_str_eqb_eq in H0. repeat split; try assumption. lia.
Qed.

(** ** The lease invariant *)

Lemma init_consistent : lease_consistent init.
Proof. left; split; reflexivity. Qed.

Lemma step_consistent op s :
  lease_consistent s -> lease_consistent (after op s).
Proof.
  unfold lease_consistent, after, run_op, exec.
  intros H; destruct op; run_m; auto.
  all: try (right; eexists; split; [reflexivity | split; [|reflexivity]];
            apply Z.eqb_eq; assumption).
Qed.

Lemma reachable_consistent s : reachable s -> lease_consistent s.
Proof.
  induction 1; [apply init_consistent | apply step_consistent; assumption].
Qed.

Lemma run_reachable ops : forall s, reachable s -> reachable (run ops s).
Proof.
  induction ops as [|op ops IH]; intros s H; simpl; [assumption|].
  apply IH, reach_step, H.
Qed.

Lemma reachable_run s : reachable s -> exists ops, s = run ops init.
Proof.
  induction 1 as [|s op _ [ops ->]].
  - exists []; reflexivity.
  - exists (ops ++ [op]). unfold run. rewrite fold_left_app. reflexivity.
Qed.

(** ** UTF-8: what the decoder produces, the encoder accepts *)

Lemma between_spec lo hi x :
  between lo hi x = true <-> (lo <= x /\ x <= hi)%N.
Proof.
  unfold between. rewrite andb_true_iff, !N.leb_le. reflexivity.
Qed.

Lemma scalar_intro c :
  (c <= 1114111)%N -> ~ (55296 <= c <= 57343)%N -> scalar c.
Proof.
  intros Hmax Hsur. unfold scalar, encode_point.
  destruct (N.leb c 127); [discriminate|].
  destruct (N.leb c 2047); [discriminate|].
  destruct (between 55296 57343 c) eqn:E.
  { apply between_spec in E. contradiction. }
  destruct (N.leb c 65535); [discriminate|].
  destruct (N.leb c 1114111) eqn:E'; [discriminate|].
  apply N.leb_gt in E'. lia.
Qed.

Lemma low6_mod x : low6 x = (x mod 64)%N.
Proof. unfold low6. apply (N.land_ones x 6). Qed.

Lemma land31_mod x : N.land x 31 = (x mod 32)%N.
Proof. apply (N.land_ones x 5). Qed.

Lemma land15_mod x : N.land x 15 = (x mod 16)%N.
Proof. apply (N.land_ones x 4). Qed.

Lemma land7_mod x : N.land x 7 = (x mod 8)%N.
Proof. apply (N.land_ones x 3). Qed.

Ltac mod_facts :=
  repeat match goal with
  | |- context [(?a mod ?k)%N] =>
    let q := fresh "q" in
    let r := fresh "r" in
    let Hq := fresh "Hq" in
    let Hr := fresh "Hr" in
    pose proof (N.div_mod a k ltac:(discriminate)) as Hq;
    pose proof (N.mod_lt a k ltac:(discriminate)) as Hr;
    set (r := (a mod k)%N) in *;
    set (q := (a / k)%N) in *;
    clearbody r q
  end.

Lemma decode_utf8_scalar n : forall bs s,
  (List.length bs <= n)%nat -> decode_utf8 bs = Some s -> Forall scalar s.
Proof.
  induction n as [|n IH]; intros bs s Hn.
  { destruct bs; [|simpl in Hn; lia]. simpl. intros [= <-]. constructor. }
  destruct bs as [|b0 r0]; [simpl; intros [= <-]; constructor|].
  simpl in Hn. cbn [decode_utf8].
  destruct (N.leb b0 127) eqn:E1.
  { destruct (decode_utf8 r0) eqn:D; [|discriminate]. intros [= <-].
    constructor; [|apply (IH r0); [lia | assumption]].
    apply N.leb_le in E1. apply scalar_intro; lia. }
  destruct (between 194 223 b0) eqn:E2.
  { destruct r0 as [|b1 r1]; [discriminate|].
    destruct (cont b1) eqn:C1; [|discriminate].
    destruct (decode_utf8 r1) eqn:D; [|discriminate]. intros [= <-].
    constructor; [|apply (IH r1); [simpl in Hn; lia | assumption]].
    rewrite low6_mod, land31_mod.
    apply between_spec in E2, C1.
    apply scalar_intro; mod_facts; lia. }
  destruct (between 224 239 b0) eqn:E3.
  { destruct r0 as [|b1 [|b2 r2]]; try discriminate.
    match goal with |- (if ?c then _ else _) = _ -> _ =>
      destruct c eqn:C end; [|discriminate].
    destruct (decode_utf8 r2) eqn:D; [|discriminate]. intros [= <-].
    constructor; [|apply (IH r2); [simpl in Hn; lia | assumption]].
    apply andb_true_iff in C. destruct C as [C1 C2].
    destruct (N.eqb_spec b0 224), (N.eqb_spec b0 237);
      apply between_spec in E3, C1, C2;
      rewrite !low6_mod, land15_mod;
      apply scalar_intro; mod_facts; lia. }
  destruct (between 240 244 b0) eqn:E4; [|discriminate].
  destruct r0 as [|b1 [|b2 [|b3 r3]]]; try discriminate.
  match goal with |- (if ?c then _ else _) = _ -> _ =>
    destruct c eqn:C end; [|discriminate].
  destruct (decode_utf8 r3) eqn:D; [|discriminate]. intros [= <-].
  constructor; [|apply (IH r3); [simpl in Hn; lia | assumption]].
  apply andb_true_iff in C. destruct C as [C C3].
  apply andb_true_iff in C. destruct C as [C1 C2].
  destruct (N.eqb_spec b0 240), (N.eqb_spec b0 244);
    apply between_spec in E4, C1, C2, C3;
    rewrite !low6_mod, land7_mod;
    apply scalar_intro; mod_facts; lia.
Qed.

Lemma decode_scalar data s : decode data = Some s -> Forall scalar s.
Proof. apply (decode_utf8_scalar _ _ _ (le_n _)). Qed.

Lemma lstrip_scalar s : Forall scalar s -> Forall scalar (lstrip s).
Proof.
  induction 1 as [|c s Hc Hs IH]; simpl; [constructor|].
  destruct (isspace c); [assumption | constructor; assumption].
Qed.

Lemma strip_scalar s : Forall scalar s -> Forall scalar (strip s).
Proof.
  intros H. unfold strip, rstrip.
  apply Forall_rev, lstrip_scalar, Forall_rev, lstrip_scalar, H.
Qed.

Lemma scalar_encode s : Forall scalar s -> encode s <> None.
Proof.
  induction 1 as [|c s Hc Hs IH]; simpl; [discriminate|].
  unfold scalar in Hc.
  destruct (encode_point c); [|contradiction].
  destruct (encode s); [discriminate | contradiction].
Qed.

(** A string obtained as [b.decode('utf-8').strip()] can be encoded. *)
Lemma decoded_encodes data s :
  decode data = Some s -> exists b, encode (strip s) = Some b.
Proof.
  intros H. apply decode_scalar, strip_scalar, scalar_encode in H.
  destruct (encode (strip s)) as [b|]; [exists b; reflexivity | contradiction].
Qed.

Ltac case_k :=
  match goal with
  | H : ?l = ?r |- context [match ?x with _ => _ end] =>
    lazymatch r with
    | true => idtac | false => idtac | Some _ => idtac | None => idtac
    | Return _ => idtac | Raise _ => idtac
    end;
    lazymatch x with context [l] => rewrite H end
  | |- _ => case_m
  end.

Ltac run_k := unfold_m; simp_m; repeat (case_k; simp_m).

Lemma opt_str_eqb_refl a : opt_str_eqb a a = true.
Proof. apply opt_str_eqb_eq; reflexivity. Qed.

Lemma gtb_false a b : a <= b -> (a >? b) = false.
Proof. intros H. destruct (Z.gtb_spec a b); [lia | reflexivity]. Qed.

Lemma gtb_true a b : a > b -> (a >? b) = true.
Proof. intros H. destruct (Z.gtb_spec a b); [reflexivity | lia]. Qed.

(** What [_is_token_valid] does in each of its three cases. *)
Lemma valid_accepts s now token :
  accepted s now token -> _is_token_valid token now s = (Return true, s).
Proof.
  intros H. apply accepted_iff in H. destruct H as (Ht & -> & Hd).
  pose proof (opt_str_eqb_refl (active_token s)) as He.
  apply gtb_false in Hd. run_k. reflexivity.
Qed.

Lemma valid_rejects s now token :
  truthy token = false \/ token <> active_token s ->
  _is_token_valid token now s = (Return false, s).
Proof.
  intros H.
  assert (E : negb (truthy token)
              || negb (opt_str_eqb token (active_token s)) = true).
  { apply orb_true_iff. destruct H as [-> | H]; [left; reflexivity|].
    right. apply negb_true_iff.
    destruct (opt_str_eqb token (active_token s)) eqn:E; [|reflexivity].
    apply opt_str_eqb_eq in E. contradiction. }
  run_k. reflexivity.
Qed.

Lemma valid_raises s now token :
  truthy token = true -> token = active_token s ->
  now - last_hold_time s > 3 ->
  _is_token_valid token now s = (Raise (NameError "TOKEN_EXPIRATION"), s).
Proof.
  intros Ht -> Hd.
  pose proof (opt_str_eqb_refl (active_token s)) as He.
  apply gtb_true in Hd. run_k. reflexivity.
Qed.

Lemma step_encodable op s : token_encodable s -> token_encodable (after op s).
Proof.
  unfold token_encodable, after, run_op, exec.
  intros H; destruct op; run_m; auto; try discriminate.
  all: intros t0 [= <-]; apply scalar_encode, strip_scalar;
       eapply decode_scalar; eassumption.
Qed.

Lemma reachable_encodable s : reachable s -> token_encodable s.
Proof.
  induction 1; [intros t; discriminate | apply step_encodable; assumption].
Qed.

Ltac unfold_v :=
  unfold claim, hold, ssid, wipe, read_current_ssid, read_status,
    _default_status_handler, _default_ssid_handler, get_state, reset,
    reset_state, relink, store_claim, lacks,
    encode_token, encode_utf8, decode_strip, write_gatt_char,
    read_gatt_char, record_call, uuid_of, load_global, _log, try_except,
    bind, get, modify, ret, raise in *.

Ltac case_v :=
  first [ rewrite valid_accepts by assumption
        | rewrite valid_raises by assumption
        | rewrite valid_rejects by assumption
        | case_k ].

Ltac simp_v :=
  cbn -[decode strip encode contains len lit ssid_payload has_property
        Z.gtb Z.eqb Z.sub Z.le Z.lt Z.ge Z.gt Z.compare
        _is_token_valid] in *.

Ltac run_v := unfold_v; simp_v; repeat (case_v; simp_v).

Lemma ready_inv s ch :
  not_ready s ch = false ->
  exists cl c, client s = Some cl /\ is_connected cl = true /\ ch = Some c.
Proof.
  unfold not_ready. destruct (client s) as [cl|]; [|discriminate].
  destruct (is_connected cl) eqn:E, ch as [c|]; simpl; try discriminate.
  intros _. exists cl, c. auto.
Qed.

Ltac ready H :=
  let cl := fresh "cl" in
  let c := fresh "c" in
  let Ecl := fresh "Ecl" in
  let Econ := fresh "Econ" in
  let Ech := fresh "Ech" in
  destruct (ready_inv _ _ H) as (cl & c & Ecl & Econ & Ech);
  rewrite Ech in H.

Lemma accepted_stored s now token :
  lease_consistent s -> accepted s now token ->
  exists t, token = Some t /\ active_token s = Some t
            /\ claim_enabled s = false.
Proof.
  intros Hc Ha. apply accepted_iff in Ha. destruct Ha as (Ht & -> & _).
  destruct Hc as [[Hn _] | (t & Hs & _ & Hf)].
  - rewrite Hn in Ht. discriminate.
  - exists t. auto.
Qed.

(** C1. In every state reached from the initial one by any sequence of
    claim, hold, ssid, wipe, read, notification, snapshot and reset
    operations, at most one token is accepted as valid at any instant,
    and [claim_enabled] is false whenever a non-expired token is
    stored. *)
Theorem single_live_token ops now :
  let s := run ops init in
  (forall t1 t2, accepted s now t1 -> accepted s now t2 -> t1 = t2)
  /\ (holds_live_token s now -> claim_enabled s = false)
  /\ (forall t, accepted s now t -> claim_enabled s = false).
Proof.
  intros s.
  assert (Hc : lease_consistent s)
    by apply reachable_consistent, run_reachable, reach_init.
  split; [|split].
  - intros t1 t2 H1 H2. apply accepted_iff in H1, H2.
    destruct H1 as (_ & -> & _), H2 as (_ & -> & _). reflexivity.
  - intros (t & Ht & _).
    destruct Hc as [[Hn _] | (t0 & _ & _ & Hf)]; [congruence | exact Hf].
  - intros t Ha. destruct (accepted_stored _ _ _ Hc Ha) as (? & _ & _ & Hf).
    exact Hf.
Qed.

Lemma single_live_token_witness :
  holds_live_token holding 1 /\ accepted holding 1 (Some sample_token)
  /\ claim_enabled holding = false.
Proof.
  assert (L : holds_live_token holding 1).
  { exists sample_token. split; [reflexivity | vm_compute; discriminate]. }
  split; [exact L | split; [reflexivity|]].
  exact (proj1 (proj2 (single_live_token
           [sample_link; OpClaim 0 (Return (blit "AbC123Xy")) 0] 1)) L).
Defined.

(** C2, as stated, fails: after a successful [wipe] with the valid token
    the token is still stored, claiming is still disabled, and an
    immediate [claim] is refused. *)
Lemma wipe_keeps_lease_counterexample :
  accepted holding 1 (Some sample_token)
  /\ fst (wipe (Some sample_token) 1 (Return tt) 2 holding) = Return true
  /\ active_token (snd (wipe (Some sample_token) 1 (Return tt) 2 holding))
     <> None
  /\ claim_enabled (snd (wipe (Some sample_token) 1 (Return tt) 2 holding))
     <> true
  /\ fst (claim 2 (Return (blit "Zz999999")) 2
            (snd (wipe (Some sample_token) 1 (Return tt) 2 holding)))
     = Return None.
Proof. vm_compute. repeat split; discriminate. Qed.

(** C2, amended. For every valid token, [wipe(token)] whose write
    succeeds returns [True] and only renews the lease: [last_hold_time]
    becomes the current time while the token stays stored and
    [claim_enabled] stays false, so an immediate [claim()] is refused. *)
Theorem wipe_only_renews s token t t' :
  reachable s -> not_ready s (_wipe_char s) = false ->
  accepted s t token ->
  fst (wipe token t (Return tt) t' s) = Return true
  /\ active_token (snd (wipe token t (Return tt) t' s)) = token
  /\ claim_enabled (snd (wipe token t (Return tt) t' s)) = false
  /\ last_hold_time (snd (wipe token t (Return tt) t' s)) = t'
  /\ forall t2 rd t3,
       fst (claim t2 rd t3 (snd (wipe token t (Return tt) t' s)))
       = Return None.
Proof.
  intros Hr Hready Ha.
  destruct (accepted_stored _ _ _ (reachable_consistent _ Hr) Ha)
    as (tok & -> & Hs & Hf).
  pose proof (reachable_encodable _ Hr _ Hs) as He.
  destruct (encode tok) as [b|] eqn:Eb; [clear He | contradiction].
  ready Hready. run_v. all: repeat split; auto.
Qed.

Lemma wipe_only_renews_witness :
  fst (wipe (Some sample_token) 1 (Return tt) 2 holding) = Return true
  /\ active_token (snd (wipe (Some sample_token) 1 (Return tt) 2 holding))
     = Some sample_token
  /\ claim_enabled (snd (wipe (Some sample_token) 1 (Return tt) 2 holding))
     = false
  /\ last_hold_time (snd (wipe (Some sample_token) 1 (Return tt) 2 holding))
     = 2
  /\ forall t2 rd t3,
       fst (claim t2 rd t3
              (snd (wipe (Some sample_token) 1 (Return tt) 2 holding)))
       = Return None.
Proof.
  apply (wipe_only_renews holding (Some sample_token) 1 2).
  - apply reach_step, reach_step, reach_init.
  - reflexivity.
  - reflexivity.
Defined.

(** C3 fails on the code: for a token equal to the stored one whose age
    exceeds the expiry duration, [hold] does not return; evaluating the
    unbound name [TOKEN_EXPIRATION] raises [NameError] before anything
    is cleared, and the service object is left exactly as it was. *)
Theorem hold_expired_token_raises s token t wr t' :
  not_ready s (_hold_char s) = false ->
  truthy token = true -> token = active_token s ->
  t - last_hold_time s > 3 ->
  hold token t wr t' s = (Raise (NameError "TOKEN_EXPIRATION"), s).
Proof.
  intros Hready Ht He Hd. ready Hready. run_v. reflexivity.
Qed.

Lemma hold_expired_token_raises_witness :
  hold (Some sample_token) 10 (Return tt) 10 holding
  = (Raise (NameError "TOKEN_EXPIRATION"), holding).
Proof.
  apply (hold_expired_token_raises holding (Some sample_token) 10
           (Return tt) 10).
  - reflexivity.
  - reflexivity.
  - reflexivity.
  - reflexivity.
Defined.

(** C4 fails on the code: in a state reached by connecting and claiming
    at time 0, [hold] with the issued token at time 10 propagates
    [NameError] to its caller instead of returning; [ssid] and [wipe]
    do the same. *)
Theorem expired_hold_aborts :
  reachable holding
  /\ run_op (OpHold (Some sample_token) 10 (Return tt) 10) holding
     = (Some (NameError "TOKEN_EXPIRATION"), holding)
  /\ run_op (OpSsid (Some sample_token) None None 10 (Return tt) 10) holding
     = (Some (NameError "TOKEN_EXPIRATION"), holding)
  /\ run_op (OpWipe (Some sample_token) 10 (Return tt) 10) holding
     = (Some (NameError "TOKEN_EXPIRATION"), holding).
Proof.
  split; [apply reach_step, reach_step, reach_init|].
  repeat split.
Qed.

(** C5 fails on the code: [claim] is refused whenever [claim_enabled] is
    false, whether or not the stored token is still valid; no read is
    issued and no lease attribute changes. *)
Theorem claim_refused_while_disabled s t rd t' :
  not_ready s (_claim_char s) = false ->
  claim_enabled s = false ->
  fst (claim t rd t' s) = Return None
  /\ lease (snd (claim t rd t' s)) = lease s
  /\ client (snd (claim t rd t' s)) = client s.
Proof.
  intros Hready Hf. ready Hready. unfold lease. run_v.
  rewrite Hf. auto.
Qed.

Lemma claim_refused_while_disabled_witness :
  fst (claim 10 (Return (blit "Zz999999")) 10 holding) = Return None
  /\ lease (snd (claim 10 (Return (blit "Zz999999")) 10 holding))
     = lease holding
  /\ client (snd (claim 10 (Return (blit "Zz999999")) 10 holding))
     = client holding.
Proof.
  apply (claim_refused_while_disabled holding 10
           (Return (blit "Zz999999")) 10).
  - reflexivity.
  - reflexivity.
Defined.

(** The state in which [claim] is wrongly refused is reachable: ten
    seconds after a claim at time 0 the token is no longer accepted and
    [get_state] reports claiming as enabled, yet [claim] returns [None]. *)
Lemma claim_after_expiry_refused :
  reachable holding
  /\ ~ accepted holding 10 (Some sample_token)
  /\ option_map v_claim_enabled
       (match fst (get_state 10 holding) with
        | Return v => Some v | Raise _ => None end) = Some true
  /\ fst (claim 10 (Return (blit "Zz999999")) 10 holding) = Return None.
Proof.
  split; [apply reach_step, reach_step, reach_init|].
  split; [intros H; vm_compute in H; discriminate|].
  split; reflexivity.
Qed.

(** C6. For a valid token, when the write issued by [hold] fails, [hold]
    returns [False], logs the failure and leaves [last_hold_time]
    unchanged; [last_hold_time] changes only when the write completed,
    in which case [hold] returns [True]. *)
Theorem hold_renews_only_on_confirmed_write s token t wr t' :
  not_ready s (_hold_char s) = false ->
  accepted s t token ->
  (forall e, wr = Raise e ->
     fst (hold token t wr t' s) = Return false
     /\ last_hold_time (snd (hold token t wr t' s)) = last_hold_time s
     /\ exists e',
          last_log (snd (hold token t wr t' s))
          = Some (Msg (if is_BleakError e'
                       then "Hold failed: BLE error - {e}"
                       else "Hold failed: Unexpected error - {e}")
                      [AExc e']))
  /\ (last_hold_time (snd (hold token t wr t' s)) <> last_hold_time s ->
      (exists u, wr = Return u)
      /\ fst (hold token t wr t' s) = Return true
      /\ last_hold_time (snd (hold token t wr t' s)) = t').
Proof.
  intros Hready Ha. ready Hready. unfold last_log.
  split; [intros e -> |].
  all: run_v; rewrite ?map_app.
  all: try (intros Hne; contradiction Hne; reflexivity).
  all: try (intros _; repeat split; eexists; reflexivity).
  all: split; [reflexivity | split; [reflexivity|]].
  all: lazymatch goal with
       | |- context [AExc ?x] => exists x
       end.
  all: cbn [map]; rewrite last_last;
       try match goal with
           | H : is_BleakError _ = _ |- _ => rewrite H
           end; reflexivity.
Qed.

Lemma hold_renews_only_on_confirmed_write_witness :
  fst (hold (Some sample_token) 1 (Raise (BleakError (lit "timeout"))) 2
         holding) = Return false
  /\ last_hold_time
       (snd (hold (Some sample_token) 1 (Raise (BleakError (lit "timeout")))
               2 holding)) = 0.
Proof.
  pose proof (proj1 (hold_renews_only_on_confirmed_write holding
                       (Some sample_token) 1
                       (Raise (BleakError (lit "timeout"))) 2
                       eq_refl eq_refl)
                _ eq_refl) as H.
  split; [exact (proj1 H) | exact (proj1 (proj2 H))].
Defined.

(** C7, as stated, fails: an ssid passed as the empty string is present
    but is not appended, and the password passed with it is dropped; an
    empty password is likewise not appended. *)
Lemma ssid_empty_field_counterexample :
  ssid_payload sample_token (Some []) (Some (lit "pw")) = lit "AbC123Xy"
  /\ spec_payload sample_token (Some []) (Some (lit "pw"))
     = lit "AbC123Xy,,pw"
  /\ ssid_payload sample_token (Some (lit "net1")) (Some [])
     = lit "AbC123Xy,net1"
  /\ spec_payload sample_token (Some (lit "net1")) (Some [])
     = lit "AbC123Xy,net1,"
  /\ option_map gatt_calls
       (client (snd (ssid (Some sample_token) (Some []) (Some (lit "pw"))
                       1 (Return tt) 1 holding)))
     = Some [WriteChar "A4955678-C5B1-4B44-B512-1370F02D74D3"
               (blit "AbC123Xy") true;
             ReadChar "A4955678-C5B1-4B44-B512-1370F02D74D1"].
Proof. vm_compute. repeat split. Qed.

Lemma ssid_payload_given token new_ssid password :
  ssid_payload token new_ssid password
  = spec_payload token (given new_ssid) (given password).
Proof.
  unfold ssid_payload, spec_payload, given.
  destruct new_ssid as [[|c n]|], password as [[|d p]|]; simpl;
    rewrite <- ?app_assoc, ?app_nil_r; reflexivity.
Qed.

(** C7, amended. For a valid token, [ssid] writes the UTF-8 encoding of
    the comma-delimited string [token[,ssid[,password]]] in which the
    ssid is appended iff it is given and non-empty, and the password iff
    the ssid was appended and the password is given and non-empty. *)
Theorem ssid_writes_delimited_payload s token new_ssid password t wr t' data :
  not_ready s (_ssid_control_char s) = false ->
  accepted s t (Some token) ->
  encode (spec_payload token (given new_ssid) (given password)) = Some data ->
  ssid_payload token new_ssid password
  = spec_payload token (given new_ssid) (given password)
  /\ exists cl c,
       client s = Some cl /\ _ssid_control_char s = Some c
       /\ client (snd (ssid (Some token) new_ssid password t wr t' s))
          = Some (mkClient (is_connected cl)
                    (WriteChar (uuid c) data true :: gatt_calls cl)).
Proof.
  intros Hready Ha He. split; [apply ssid_payload_given|].
  rewrite <- ssid_payload_given in He.
  ready Hready. exists cl, c. split; [assumption | split; [assumption|]].
  run_v; reflexivity.
Qed.

Lemma ssid_writes_delimited_payload_witness :
  ssid_payload sample_token (Some (lit "net1")) (Some (lit "pass1"))
  = lit "AbC123Xy,net1,pass1"
  /\ exists cl c,
       client holding = Some cl /\ _ssid_control_char holding = Some c
       /\ client (snd (ssid (Some sample_token) (Some (lit "net1"))
                         (Some (lit "pass1")) 1 (Return tt) 2 holding))
          = Some (mkClient (is_connected cl)
                    (WriteChar (uuid c) (blit "AbC123Xy,net1,pass1") true
                       :: gatt_calls cl)).
Proof.
  apply (ssid_writes_delimited_payload holding sample_token
           (Some (lit "net1")) (Some (lit "pass1")) 1 (Return tt) 2
           (blit "AbC123Xy,net1,pass1")).
  - reflexivity.
  - reflexivity.
  - reflexivity.
Defined.

Example ssid_payload_full token :
  ssid_payload token (Some (lit "net1")) (Some (lit "pass1"))
  = token ++ lit ",net1,pass1".
Proof. unfold ssid_payload. simpl. rewrite <- app_assoc. reflexivity. Qed.

Example ssid_payload_no_password token :
  ssid_payload token (Some (lit "net1")) None = token ++ lit ",net1".
Proof. reflexivity. Qed.

Example ssid_payload_token_only token password :
  ssid_payload token None password = token.
Proof. reflexivity. Qed.

(** C8. [get_state] leaves the service object exactly as it was; when a
    token is stored and its age exceeds the expiry duration, the view it
    returns shows no token and claiming enabled, whatever the stored
    attributes say. *)
Theorem get_state_is_read_only s now :
  snd (get_state now s) = s
  /\ exists v,
       fst (get_state now s) = Return v
       /\ v_last_hold_time v = last_hold_time s
       /\ (truthy (active_token s) = true ->
           now - last_hold_time s > 3 ->
           v_active_token v = None /\ v_claim_enabled v = true
           /\ v_token_expired v = true).
Proof.
  run_m.
  all: split; [reflexivity|]; eexists; split; [reflexivity|]; simpl.
  all: split; [reflexivity|]; intros Ht Hd; apply gtb_true in Hd.
  all: bool_hyps; try congruence.
  all: rewrite ?Hd, ?orb_true_r; auto.
Qed.

Lemma get_state_is_read_only_witness :
  snd (get_state 10 holding) = holding
  /\ active_token holding = Some sample_token
  /\ claim_enabled holding = false
  /\ exists v,
       fst (get_state 10 holding) = Return v
       /\ v_active_token v = None /\ v_claim_enabled v = true.
Proof.
  destruct (get_state_is_read_only holding 10) as (Hs & v & Hv & _ & Hx).
  split; [exact Hs | split; [reflexivity | split; [reflexivity|]]].
  exists v. split; [exact Hv|].
  destruct (Hx eq_refl eq_refl) as (Ha & Hb & _). split; assumption.
Defined.

(** ** Substring test *)

Lemma startswith_spec hay needle :
  startswith hay needle = true <-> exists post, hay = needle ++ post.
Proof.
  revert hay; induction needle as [|n needle IH]; intros hay; simpl.
  - split; [intros _; exists hay; reflexivity | reflexivity].
  - destruct hay as [|h hay].
    + split; [discriminate | intros [post H]; discriminate].
    + rewrite andb_true_iff, N.eqb_eq, IH. split.
      * intros [-> [post ->]]. exists post. reflexivity.
      * intros [post [= -> ->]]. split; [reflexivity | exists post; reflexivity].
Qed.

Lemma contains_spec hay needle :
  contains hay needle = true <-> substring needle hay.
Proof.
  unfold substring. induction hay as [|h hay IH]; simpl.
  - rewrite orb_false_r, startswith_spec. split.
    + intros [post H]. exists [], post. exact H.
    + intros (pre & post & H). destruct pre; [exists post; exact H|].
      discriminate.
  - rewrite orb_true_iff, startswith_spec, IH. split.
    + intros [[post H] | (pre & post & H)].
      * exists [], post. exact H.
      * exists (h :: pre), post. simpl. rewrite H. reflexivity.
    + intros (pre & post & H). destruct pre as [|p pre].
      * left. exists post. exact H.
      * right. injection H as _ H. exists pre, post. exact H.
Qed.

(** ** Status notifications *)

Lemma hold_rejected_without_token s token t wr t' :
  active_token s = None -> printable_token token = true ->
  fst (hold token t wr t' s) = Return false.
Proof.
  intros Hn _.
  assert (Hv : truthy token = false \/ token <> active_token s).
  { rewrite Hn. destruct token; [right; discriminate | left; reflexivity]. }
  run_v; reflexivity.
Qed.

(** The handler on a payload that decodes to [text]. *)
Lemma status_handler_decoded s data text :
  decode data = Some text ->
  fst (_default_status_handler data s) = Return tt
  /\ status (snd (_default_status_handler data s)) = strip text
  /\ lease (snd (_default_status_handler data s))
     = if contains (strip text) (lit "Expired")
          || contains (strip text) (lit "Reset")
       then (None, last_hold_time s, true)
       else lease s.
Proof. intros Hd. unfold lease. run_v; repeat split. Qed.

(** A payload that is not valid UTF-8 makes the handler raise before it
    assigns anything. *)
Lemma status_notification_undecodable s data :
  decode data = None ->
  _default_status_handler data s = (Raise UnicodeDecodeError, s).
Proof. intros Hd. run_v. reflexivity. Qed.

(** C9, as stated, fails: the payload [b'Reset\xff'] carries the reset
    marker but is not valid UTF-8; the handler raises
    [UnicodeDecodeError], the stored status is not overwritten and the
    lease is not cleared. *)
Lemma status_notification_undecodable_counterexample :
  decode [x52; x65; x73; x65; x74; xff] = None
  /\ _default_status_handler [x52; x65; x73; x65; x74; xff] holding
     = (Raise UnicodeDecodeError, holding)
  /\ status holding = lit "Idle"
  /\ active_token holding = Some sample_token
  /\ claim_enabled holding = false.
Proof. vm_compute. repeat split. Qed.

(** C9, amended. For every status payload that is valid UTF-8, the
    handler stores the decoded, stripped text as [status]; if that text
    contains an expiry or reset marker it also clears the token and
    enables claiming, after which a [hold] with any printable token is
    rejected.  A payload that is not valid UTF-8 makes the handler raise
    [UnicodeDecodeError] and changes nothing. *)
Theorem status_notification_effect s data :
  match decode data with
  | Some text =>
    fst (_default_status_handler data s) = Return tt
    /\ status (snd (_default_status_handler data s)) = strip text
    /\ (contains (strip text) (lit "Expired")
        || contains (strip text) (lit "Reset") = true ->
        active_token (snd (_default_status_handler data s)) = None
        /\ claim_enabled (snd (_default_status_handler data s)) = true
        /\ forall token t wr t',
             printable_token token = true ->
             fst (hold token t wr t' (snd (_default_status_handler data s)))
             = Return false)
  | None =>
    _default_status_handler data s = (Raise UnicodeDecodeError, s)
  end.
Proof.
  destruct (decode data) as [text|] eqn:Hd;
    [|apply status_notification_undecodable, Hd].
  destruct (status_handler_decoded s data text Hd) as (H1 & H2 & H3).
  split; [exact H1 | split; [exact H2|]].
  intros Hm. rewrite Hm in H3. injection H3 as Ha _ Hc.
  split; [exact Ha | split; [exact Hc|]].
  intros token t wr t' Hp. apply hold_rejected_without_token; assumption.
Qed.

Lemma status_notification_effect_witness :
  fst (_default_status_handler (blit " Token Expired ") holding) = Return tt
  /\ status (snd (_default_status_handler (blit " Token Expired ") holding))
     = lit "Token Expired"
  /\ active_token
       (snd (_default_status_handler (blit " Token Expired ") holding))
     = None
  /\ claim_enabled
       (snd (_default_status_handler (blit " Token Expired ") holding))
     = true
  /\ fst (hold (Some sample_token) 1 (Return tt) 1
            (snd (_default_status_handler (blit " Token Expired ") holding)))
     = Return false.
Proof.
  pose proof (status_notification_effect holding (blit " Token Expired "))
    as H.
  change (decode (blit " Token Expired "))
    with (Some (lit " Token Expired ")) in H.
  destruct H as (H1 & H2 & H3).
  destruct (H3 eq_refl) as (H4 & H5 & H6).
  split; [exact H1 | split; [exact H2|]].
  split; [exact H4 | split; [exact H5|]].
  apply H6. reflexivity.
Defined.

(** C10. The marker test is case-sensitive substring containment: a
    status payload whose decoded, stripped text contains ["Expired"] or
    ["Reset"] anywhere clears the token and enables claiming; a payload
    whose text contains neither leaves the token, [claim_enabled] and
    [last_hold_time] as they were. *)
Theorem status_marker_is_substring s data :
  (forall text, decode data = Some text ->
     substring (lit "Expired") (strip text)
     \/ substring (lit "Reset") (strip text) ->
     active_token (snd (_default_status_handler data s)) = None
     /\ claim_enabled (snd (_default_status_handler data s)) = true)
  /\ ((forall text, decode data = Some text ->
         ~ substring (lit "Expired") (strip text)
         /\ ~ substring (lit "Reset") (strip text)) ->
      lease (snd (_default_status_handler data s)) = lease s).
Proof.
  split.
  - intros text Hd Hm.
    destruct (status_handler_decoded s data text Hd) as (_ & _ & H).
    assert (E : contains (strip text) (lit "Expired")
                || contains (strip text) (lit "Reset") = true).
    { apply orb_true_iff.
      destruct Hm as [Hm | Hm]; [left | right]; apply contains_spec, Hm. }
    rewrite E in H. injection H as Ha _ Hc. auto.
  - intros Hn. destruct (decode data) as [text|] eqn:Hd.
    + destruct (Hn text eq_refl) as [H1 H2].
      rewrite <- contains_spec in H1, H2.
      apply not_true_is_false in H1, H2.
      destruct (status_handler_decoded s data text Hd) as (_ & _ & H).
      rewrite H1, H2 in H. exact H.
    + rewrite status_notification_undecodable by assumption. reflexivity.
Qed.

Lemma status_marker_is_substring_witness :
  substring (lit "Reset") (strip (lit "ResetComplete"))
  /\ active_token
       (snd (_default_status_handler (blit "ResetComplete") holding)) = None
  /\ claim_enabled
       (snd (_default_status_handler (blit "ResetComplete") holding)) = true
  /\ lease (snd (_default_status_handler (blit "reset done") holding))
     = lease holding.
Proof.
  assert (Hs : substring (lit "Reset") (strip (lit "ResetComplete"))).
  { exists [], (lit "Complete"). reflexivity. }
  split; [exact Hs|].
  destruct (proj1 (status_marker_is_substring holding (blit "ResetComplete"))
              (lit "ResetComplete") eq_refl (or_intror Hs)) as [H1 H2].
  split; [exact H1 | split; [exact H2|]].
  apply (proj2 (status_marker_is_substring holding (blit "reset done"))).
  intros text [= <-].
  split; intros H; apply contains_spec in H; discriminate H.
Defined.

(** ** When a call raises *)

(** From a consistent state, the only exceptions that escape an
    operation whose outside texts are printable are the [NameError] of
    the token-gated methods on an expired matching token and the
    [UnicodeDecodeError] of the notification handlers. *)
Lemma raises_only s op e :
  lease_consistent s -> printable_op op = true ->
  fst (run_op op s) = Some e ->
  (e = NameError "TOKEN_EXPIRATION"
   /\ exists tok t, gate_of op = Some (tok, t)
        /\ truthy tok = true /\ tok = active_token s
        /\ t - last_hold_time s > 3)
  \/ (e = UnicodeDecodeError
      /\ exists d, notified op = Some d /\ decode d = None).
Proof.
  intros Hc _. unfold run_op, exec.
  destruct op; run_m; try discriminate; intros [= <-].
  all: bool_hyps.
  all: try (right; split; [reflexivity|]; eexists; split;
            [reflexivity | assumption]).
  all: try (left; split; [reflexivity|]; eexists; eexists; split;
            [reflexivity|]; split; [assumption|];
            split; [apply opt_str_eqb_eq; assumption|];
            match goal with
            | H : (_ >? _) = true |- _ =>
              apply Z.gtb_lt in H; lia
            end).
  all: try (exfalso; destruct Hc as [[Hn _] | (t0 & Hs & _ & Hf)];
            [rewrite Hn in *; discriminate | congruence]).
  all: exfalso;
       match goal with
       | H : not_ready _ None = false |- _ =>
         apply ready_inv in H; destruct H as (? & ? & _ & _ & ?);
         discriminate
       end.
Qed.

(** A claim made while claiming is enabled: the read is issued, and a
    payload that decodes and strips to [TOKEN_LENGTH] characters becomes
    the stored token. *)
Lemma claim_stores_token s t b t' text :
  lease_consistent s ->
  not_ready s (_claim_char s) = false ->
  claim_enabled s = true ->
  decode b = Some text -> len (strip text) = 8 ->
  fst (claim t (Return b) t' s) = Return (Some (strip text))
  /\ lease (snd (claim t (Return b) t' s)) = (Some (strip text), t', false).
Proof.
  intros Hc Hready He Hd Hl.
  assert (Hn : active_token s = None).
  { destruct Hc as [[Hn _] | (t0 & _ & _ & Hf)]; [exact Hn | congruence]. }
  assert (Ht : truthy_str (strip text) = true).
  { destruct (strip text); [discriminate | reflexivity]. }
  apply Z.eqb_eq in Hl.
  ready Hready. unfold lease. run_v. auto.
Qed.

(** ** The validity check never assigns *)

(** X1. [_is_token_valid] never changes the object: whatever the token
    and the time, it returns [True], returns [False] or raises
    [NameError] for the unbound [TOKEN_EXPIRATION], and in each case the
    object is left exactly as it was.  The assignments of its expiry
    branch are never executed. *)
Theorem token_check_never_assigns s token now :
  snd (_is_token_valid token now s) = s
  /\ (fst (_is_token_valid token now s) = Return true
      \/ fst (_is_token_valid token now s) = Return false
      \/ fst (_is_token_valid token now s)
         = Raise (NameError "TOKEN_EXPIRATION")).
Proof. run_m; auto. Qed.

Lemma valid_cases s token now :
  _is_token_valid token now s = (Return true, s)
  \/ _is_token_valid token now s = (Return false, s)
  \/ _is_token_valid token now s = (Raise (NameError "TOKEN_EXPIRATION"), s).
Proof. run_m; auto. Qed.

Ltac case_e :=
  first [ match goal with
          | H : _is_token_valid _ _ _ = _ |- _ => rewrite H
          end
        | case_v ].

Ltac run_e := unfold_v; simp_v; repeat (case_e; simp_v).

Ltac split_valid s token t :=
  let E := fresh "E" in
  destruct (valid_cases s token t) as [E | [E | E]].

Lemma gated_renewal_hold s token t wr t' :
  renewal_only s t' (hold token t wr t' s).
Proof.
  unfold renewal_only. split_valid s token t; run_e; repeat split; auto.
Qed.

Lemma gated_renewal_ssid s token n p t wr t' :
  renewal_only s t' (ssid token n p t wr t' s).
Proof.
  unfold renewal_only. split_valid s token t; run_e; repeat split; auto.
Qed.

Lemma gated_renewal_wipe s token t wr t' :
  renewal_only s t' (wipe token t wr t' s).
Proof.
  unfold renewal_only. split_valid s token t; run_e; repeat split; auto.
Qed.

(** X2. [hold], [ssid] and [wipe] touch nothing of the lease, the status
    or the network name except [last_hold_time], and that only in a call
    that returns [True], where it becomes the clock reading taken after
    the write.  This holds for every state, token, transport answer and
    clock reading, also when the call raises. *)
Theorem gated_methods_only_renew s token new_ssid password t wr t' :
  renewal_only s t' (hold token t wr t' s)
  /\ renewal_only s t' (ssid token new_ssid password t wr t' s)
  /\ renewal_only s t' (wipe token t wr t' s).
Proof.
  split; [apply gated_renewal_hold|].
  split; [apply gated_renewal_ssid | apply gated_renewal_wipe].
Qed.

Lemma accepted_of_eq s token now :
  _is_token_valid token now s = (Return true, s) -> accepted s now token.
Proof. intros E. unfold accepted. rewrite E. reflexivity. Qed.

Ltac wrote :=
  right; split; [apply accepted_of_eq; assumption|];
  eexists; eexists; split; [reflexivity|]; split; [eassumption|];
  eexists; eexists; split; [reflexivity|]; split; [reflexivity|];
  reflexivity.

(** X3. [hold], [ssid] and [wipe] send something only for a valid token:
    either the client and the list of its requests are left as they
    were, or the token was accepted by [_is_token_valid] and exactly one
    write with response went out, to the hold, network control or wipe
    characteristic, carrying the UTF-8 bytes of the token (for [ssid],
    of the delimited payload). *)
Theorem writes_need_valid_token s token new_ssid password t wr t' :
  (client (snd (hold token t wr t' s)) = client s
   \/ (accepted s t token
       /\ exists tok data,
            token = Some tok /\ encode tok = Some data
            /\ wrote_once s (snd (hold token t wr t' s)) (_hold_char s) data))
  /\ (client (snd (ssid token new_ssid password t wr t' s)) = client s
      \/ (accepted s t token
          /\ exists tok data,
               token = Some tok
               /\ encode (ssid_payload tok new_ssid password) = Some data
               /\ wrote_once s (snd (ssid token new_ssid password t wr t' s))
                    (_ssid_control_char s) data))
  /\ (client (snd (wipe token t wr t' s)) = client s
      \/ (accepted s t token
          /\ exists tok data,
               token = Some tok /\ encode tok = Some data
               /\ wrote_once s (snd (wipe token t wr t' s))
                    (_wipe_char s) data)).
Proof.
  unfold wrote_once.
  split; [|split]; split_valid s token t; run_e;
    try (left; first [reflexivity | assumption | congruence]).
  all: wrote.
Qed.

Lemma accepted_after_renewal s' tok t' now :
  active_token s' = Some tok -> truthy (Some tok) = true ->
  last_hold_time s' = t' ->
  accepted s' now (Some tok) <-> now - t' <= 3.
Proof.
  intros Ha Ht Hl. rewrite accepted_iff, Ha, Hl. intuition.
Qed.

(** X4. From a reachable state, [hold] and [ssid] with a valid token and
    a write that succeeds return [True], and afterwards the same token
    is accepted exactly at the times no later than 3 seconds after the
    clock reading taken after the write. *)
Theorem renewal_extends_validity s token new_ssid password t t' :
  reachable s -> accepted s t token ->
  (not_ready s (_hold_char s) = false ->
   fst (hold token t (Return tt) t' s) = Return true
   /\ forall now,
        accepted (snd (hold token t (Return tt) t' s)) now token
        <-> now - t' <= 3)
  /\ (not_ready s (_ssid_control_char s) = false ->
      (forall tok, token = Some tok ->
         encode (ssid_payload tok new_ssid password) <> None) ->
      fst (ssid token new_ssid password t (Return tt) t' s) = Return true
      /\ forall now,
           accepted (snd (ssid token new_ssid password t (Return tt) t' s))
             now token
           <-> now - t' <= 3).
Proof.
  intros Hr Ha.
  destruct (accepted_stored _ _ _ (reachable_consistent _ Hr) Ha)
    as (tok & -> & Hs & Hf).
  pose proof (reachable_encodable _ Hr _ Hs) as He.
  destruct (encode tok) as [b|] eqn:Eb; [clear He | contradiction].
  assert (Ht : truthy (Some tok) = true).
  { apply accepted_iff in Ha. tauto. }
  split.
  - intros Hready. ready Hready.
    assert (E : hold (Some tok) t (Return tt) t' s
                = (Return true,
                   snd (hold (Some tok) t (Return tt) t' s))
                /\ active_token (snd (hold (Some tok) t (Return tt) t' s))
                   = Some tok
                /\ last_hold_time (snd (hold (Some tok) t (Return tt) t' s))
                   = t').
    { run_v. auto. }
    destruct E as (E1 & E2 & E3). rewrite E1 at 1. split; [reflexivity|].
    intros now. apply accepted_after_renewal; assumption.
  - intros Hready Hp. specialize (Hp tok eq_refl).
    destruct (encode (ssid_payload tok new_ssid password)) as [d|] eqn:Ed;
      [clear Hp | contradiction].
    ready Hready.
    assert (E : ssid (Some tok) new_ssid password t (Return tt) t' s
                = (Return true,
                   snd (ssid (Some tok) new_ssid password t (Return tt) t' s))
                /\ active_token
                     (snd (ssid (Some tok) new_ssid password t (Return tt) t' s))
                   = Some tok
                /\ last_hold_time
                     (snd (ssid (Some tok) new_ssid password t (Return tt) t' s))
                   = t').
    { run_v. auto. }
    destruct E as (E1 & E2 & E3). rewrite E1 at 1. split; [reflexivity|].
    intros now. apply accepted_after_renewal; assumption.
Qed.

Lemma renewal_extends_validity_witness :
  fst (hold (Some sample_token) 3 (Return tt) 3 holding) = Return true
  /\ accepted (snd (hold (Some sample_token) 3 (Return tt) 3 holding)) 6
       (Some sample_token)
  /\ ~ accepted holding 6 (Some sample_token).
Proof.
  destruct (proj1 (renewal_extends_validity holding (Some sample_token)
                     None None 3 3
                     (reach_step _ _ (reach_step _ _ reach_init)) eq_refl)
              eq_refl) as [H1 H2].
  split; [exact H1 | split].
  - apply (proj2 (H2 6)). vm_compute. discriminate.
  - intros H. vm_compute in H. discriminate.
Defined.

(** ** What a claim can do *)

(** X5. From a consistent state [claim] either returns [None] and leaves
    the lease as it was, or returns the token it stored.  The second
    happens only if claiming was enabled, no token was stored, and one
    read of the claim characteristic was issued and answered with bytes
    that decode to a text whose stripped form has 8 characters; the
    lease is then that token, the clock reading taken after the read,
    and claiming disabled. *)
Theorem claim_changes_lease_only_on_success s t rd t' :
  lease_consistent s ->
  (exists tok b text,
     fst (claim t rd t' s) = Return (Some tok)
     /\ lease (snd (claim t rd t' s)) = (Some tok, t', false)
     /\ read_once s (snd (claim t rd t' s)) (_claim_char s)
     /\ claim_enabled s = true /\ active_token s = None
     /\ rd = Return b /\ decode b = Some text
     /\ tok = strip text /\ len tok = 8)
  \/ (fst (claim t rd t' s) = Return None
      /\ lease (snd (claim t rd t' s)) = lease s).
Proof.
  intros Hc. unfold lease, read_once.
  destruct (not_ready s (_claim_char s)) eqn:Hready;
    [right; run_k; split; reflexivity|].
  ready Hready.
  destruct Hc as [[Hn He] | (t0 & Hs & _ & Hf)].
  - run_k.
    all: try (right; split; [reflexivity | rewrite ?Hn, ?He; reflexivity]).
    left. exists (strip s0), a, s0.
    split; [reflexivity|]. split; [reflexivity|].
    split; [exists cl, c; rewrite Econ; auto|].
    repeat (split; [reflexivity || assumption|]).
    apply Z.eqb_eq; assumption.
  - right. run_k. rewrite Hs, Hf. split; reflexivity.
Qed.

Lemma claim_changes_lease_only_on_success_witness :
  (exists tok b text,
     fst (claim 0 (Return (blit " AbC123Xy ")) 1 connected)
     = Return (Some tok)
     /\ lease (snd (claim 0 (Return (blit " AbC123Xy ")) 1 connected))
        = (Some tok, 1, false)
     /\ read_once connected
          (snd (claim 0 (Return (blit " AbC123Xy ")) 1 connected))
          (_claim_char connected)
     /\ claim_enabled connected = true /\ active_token connected = None
     /\ Return (blit " AbC123Xy ") = Return b /\ decode b = Some text
     /\ tok = strip text /\ len tok = 8)
  \/ (fst (claim 0 (Return (blit " AbC123Xy ")) 1 connected) = Return None
      /\ lease (snd (claim 0 (Return (blit " AbC123Xy ")) 1 connected))
         = lease connected).
Proof.
  apply (claim_changes_lease_only_on_success connected 0
           (Return (blit " AbC123Xy ")) 1).
  left. split; reflexivity.
Defined.

(** ** Which operations keep a stored token *)

Lemma keeps_token_step op s tok :
  lease_consistent s -> active_token s = Some tok ->
  keeps_token op = true -> active_token (after op s) = Some tok.
Proof.
  intros Hc Hs Hk.
  assert (Hf : claim_enabled s = false).
  { destruct Hc as [[Hn _] | (t0 & _ & _ & Hf)]; [congruence | exact Hf]. }
  unfold after, run_op, exec.
  destruct op; try discriminate Hk.
  - run_k; assumption.
  - simpl. rewrite <- Hs. apply gated_renewal_hold.
  - simpl. rewrite <- Hs. apply gated_renewal_ssid.
  - simpl. rewrite <- Hs. apply gated_renewal_wipe.
  - run_k; assumption.
  - run_k; assumption.
  - unfold keeps_token, carries_marker in Hk. apply negb_true_iff in Hk.
    destruct (decode data) as [text|] eqn:Hd.
    + destruct (status_handler_decoded s data text Hd) as (_ & _ & H).
      rewrite Hk in H. unfold lease in H. injection H as H1 _ _.
      simpl. congruence.
    + simpl. rewrite status_notification_undecodable by assumption. exact Hs.
  - run_k; assumption.
  - run_k; assumption.
  - run_k; assumption.
Qed.

Lemma drops_token_step op s :
  keeps_token op = false ->
  active_token (after op s) = None /\ claim_enabled (after op s) = true.
Proof.
  intros Hk. unfold after, run_op, exec.
  destruct op; try discriminate Hk.
  - unfold keeps_token, carries_marker in Hk. apply negb_false_iff in Hk.
    destruct (decode data) as [text|] eqn:Hd; [|discriminate].
    destruct (status_handler_decoded s data text Hd) as (_ & _ & H).
    rewrite Hk in H. unfold lease in H. injection H as H1 _ H3.
    simpl. split; assumption.
  - run_k. auto.
Qed.

Lemma claim_refused_with_token s t rd t' :
  claim_enabled s = false -> fst (claim t rd t' s) = Return None.
Proof. intros Hf. run_k; reflexivity. Qed.

(** X7. After a [reset], or a status notification whose text contains
    "Expired" or "Reset", a [claim] on a connected object whose read
    returns a text that strips to 8 characters succeeds: it returns that
    token and stores it with the new time, claiming disabled. *)
Theorem claim_succeeds_after_release op s t b t' text :
  keeps_token op = false ->
  not_ready (after op s) (_claim_char (after op s)) = false ->
  decode b = Some text -> len (strip text) = 8 ->
  fst (claim t (Return b) t' (after op s)) = Return (Some (strip text))
  /\ lease (snd (claim t (Return b) t' (after op s)))
     = (Some (strip text), t', false).
Proof.
  intros Hk Hready Hd Hl.
  destruct (drops_token_step op s Hk) as [Hn He].
  apply claim_stores_token; try assumption.
  left. split; assumption.
Qed.

Lemma claim_succeeds_after_release_witness :
  fst (claim 1000 (Return (blit "Zz999999")) 1000 (after OpReset holding))
  = Return (Some (strip (lit "Zz999999")))
  /\ lease (snd (claim 1000 (Return (blit "Zz999999")) 1000
                  (after OpReset holding)))
     = (Some (strip (lit "Zz999999")), 1000, false).
Proof.
  apply (claim_succeeds_after_release OpReset holding 1000
           (blit "Zz999999") 1000 (lit "Zz999999")).
  - reflexivity.
  - reflexivity.
  - reflexivity.
  - reflexivity.
Defined.

(** ** Pass-through reads *)

Ltac read_cases :=
  unfold read_outcome, read_once, lease;
  match goal with
  | |- context [not_ready ?s ?ch] =>
    let Hready := fresh "Hready" in
    destruct (not_ready s ch) eqn:Hready;
    [ run_k; split; [|auto]; left; auto
    | ready Hready; run_k; (split; [|auto]); right ]
  end.

(** X8. [read_status] and [read_current_ssid] never raise and never touch
    the lease or each other's attribute.  Each ends in one of these
    ways: not connected or no handle, "Error" and nothing requested; a
    handle without the "read" property, "Error: Not readable" and
    nothing requested; one read requested that fails or whose payload is
    not UTF-8, "Error" and the attribute untouched; one read requested
    whose payload decodes, the stripped text stored and returned. *)
Theorem reads_store_or_report_error s rd :
  (read_outcome s (_status_char s) status rd (read_status rd s)
   /\ lease (snd (read_status rd s)) = lease s
   /\ current_ssid (snd (read_status rd s)) = current_ssid s)
  /\ (read_outcome s (_current_ssid_char s) current_ssid rd
        (read_current_ssid rd s)
      /\ lease (snd (read_current_ssid rd s)) = lease s
      /\ status (snd (read_current_ssid rd s)) = status s).
Proof.
  split; read_cases.
  all: bool_hyps.
  all: first
    [ left; split; [reflexivity|]; split; [exists c; auto|];
      repeat split; reflexivity
    | right; split; [reflexivity|]; split; [exists c; auto|];
      split; [exists cl, c; rewrite ?Econ; auto|];
      first
        [ left; do 2 eexists; repeat split; eauto; fail
        | right;
          split;
          [ first [ left; eexists; reflexivity
                  | right; eexists; split; [reflexivity | assumption] ]
          | split; reflexivity ] ] ].
Qed.

(** A peripheral whose network is literally named ["Error"] reads the
    same as a failed read. *)
Example read_sentinel_is_ambiguous :
  fst (read_current_ssid (Return (blit "Error")) connected)
  = fst (read_current_ssid (Raise (BleakError (lit "timeout"))) connected)
  /\ current_ssid (snd (read_current_ssid (Return (blit "Error")) connected))
     = lit "Error"
  /\ current_ssid
       (snd (read_current_ssid (Raise (BleakError (lit "timeout"))) connected))
     = lit "N/A".
Proof. vm_compute. repeat split. Qed.

(** ** The network notification handler *)

(** X9. [_default_ssid_handler] leaves the lease, the status and the
    client alone.  On a payload that is valid UTF-8 it returns and
    [current_ssid] becomes the stripped text; on any other payload it
    raises [UnicodeDecodeError] and the object is unchanged. *)
Theorem ssid_notification_effect s data :
  lease (snd (_default_ssid_handler data s)) = lease s
  /\ status (snd (_default_ssid_handler data s)) = status s
  /\ client (snd (_default_ssid_handler data s)) = client s
  /\ match decode data with
     | Some text =>
       fst (_default_ssid_handler data s) = Return tt
       /\ current_ssid (snd (_default_ssid_handler data s)) = strip text
     | None =>
       _default_ssid_handler data s = (Raise UnicodeDecodeError, s)
     end.
Proof. unfold lease. run_k; repeat split. Qed.

(** ** The snapshot and the validity check agree *)

(** X10. In a consistent state [get_state] returns a snapshot that agrees
    with the validity check: it reports a token exactly when that token
    would be accepted at that time, reports claiming enabled exactly
    when no token would be accepted, and reports expiry exactly when a
    token is stored whose last renewal is more than 3 seconds old. *)
Theorem snapshot_agrees_with_validity s now :
  lease_consistent s ->
  exists v,
    fst (get_state now s) = Return v
    /\ (forall tok, v_active_token v = Some tok <-> accepted s now (Some tok))
    /\ (v_claim_enabled v = true <-> forall tok, ~ accepted s now tok)
    /\ (v_token_expired v = true
        <-> exists tok, active_token s = Some tok
                        /\ now - last_hold_time s > 3).
Proof.
  intros [[Hn He] | (t0 & Hs & Hl & Hf)].
  - assert (Ht : truthy (active_token s) = false) by (rewrite Hn; reflexivity).
    run_k; eexists; (split; [reflexivity|]); simpl; rewrite Hn, He.
    all: split; [intros tok; rewrite accepted_iff, Hn; split;
                 [discriminate | intros (_ & H & _); discriminate]|].
    all: split; [split; [intros _ tok; rewrite accepted_iff, Hn;
                         intros (Ht' & -> & _); discriminate
                        | reflexivity]|].
    all: split; [discriminate | intros (tok & H & _); discriminate].
  - assert (Ht : truthy (active_token s) = true)
      by (rewrite Hs; apply len_truthy, Hl).
    destruct (Z.gtb_spec (now - last_hold_time s) 3) as [Hg | Hg].
    + assert (Hx : (now - last_hold_time s >? 3) = true)
        by (apply gtb_true; lia).
      run_k; eexists; (split; [reflexivity|]); simpl.
      all: split; [intros tok; rewrite accepted_iff; split;
                   [discriminate | intros (_ & _ & H); lia]|].
      all: split; [split; [intros _ tok; rewrite accepted_iff;
                           intros (_ & _ & H); lia
                          | intros _; apply orb_true_r]|].
      all: split; [intros _; exists t0; split; [assumption | lia]
                  | reflexivity].
    + assert (Hx : (now - last_hold_time s >? 3) = false)
        by (apply gtb_false; lia).
      run_k; eexists; (split; [reflexivity|]); simpl; rewrite Hs, Hf.
      all: split; [intros tok; rewrite accepted_iff, Hs; split;
                   [intros [= <-]; rewrite <- Hs; auto
                   | intros (_ & H & _); exact (eq_sym H)]|].
      all: split; [split; [discriminate
                          | intros H; exfalso; apply (H (Some t0));
                            rewrite accepted_iff, Hs; rewrite Hs in Ht; auto]|].
      all: split; [discriminate | intros (tok & _ & H); lia].
Qed.

Lemma snapshot_agrees_with_validity_witness :
  exists v,
    fst (get_state 10 holding) = Return v
    /\ (forall tok, v_active_token v = Some tok
                    <-> accepted holding 10 (Some tok))
    /\ (v_claim_enabled v = true <-> forall tok, ~ accepted holding 10 tok)
    /\ (v_token_expired v = true
        <-> exists tok, active_token holding = Some tok
                        /\ 10 - last_hold_time holding > 3).
Proof.
  apply (snapshot_agrees_with_validity holding 10).
  right. exists sample_token. repeat split.
Defined.

(** ** The log only grows *)

Lemma log_grows_step op s :
  exists l, log_messages (after op s) = log_messages s ++ l.
Proof.
  unfold after, run_op, exec. destruct op; run_m.
  all: first [ exists []; rewrite app_nil_r; reflexivity
             | eexists; rewrite <- ?app_assoc; reflexivity ].
Qed.

(** X11. The log is append-only: after any sequence of operations the log
    is the old log followed by new entries; no operation removes or
    rewrites an entry, [reset] included. *)
Theorem log_is_append_only ops : forall s,
  exists l, log_messages (run ops s) = log_messages s ++ l.
Proof.
  induction ops as [|op ops IH]; intros s; simpl.
  - exists []. rewrite app_nil_r. reflexivity.
  - destruct (IH (after op s)) as [l2 H2].
    destruct (log_grows_step op s) as [l1 H1].
    exists (l1 ++ l2). rewrite H2, H1, app_assoc. reflexivity.
Qed.

(** ** What a run logs can be printed *)

Lemma encodable_iff s : encodable s = true <-> encode s <> None.
Proof. unfold encodable. destruct (encode s); split; congruence. Qed.

Lemma encode_app a b :
  encode (a ++ b)
  = match encode a, encode b with
    | Some x, Some y => Some (x ++ y)
    | _, _ => None
    end.
Proof.
  induction a as [|c a IH]; simpl.
  - destruct (encode b); reflexivity.
  - rewrite IH. destruct (encode_point c), (encode a), (encode b);
      rewrite <- ?app_assoc; reflexivity.
Qed.

Lemma encodable_app a b :
  encodable (a ++ b) = encodable a && encodable b.
Proof.
  unfold encodable. rewrite encode_app.
  destruct (encode a), (encode b); reflexivity.
Qed.

Lemma payload_encodable tok n p :
  encodable tok = true -> printable_token n = true ->
  printable_token p = true -> encodable (ssid_payload tok n p) = true.
Proof.
  intros Ht Hn Hp. unfold ssid_payload.
  destruct n as [[|c n]|], p as [[|d p]|]; simpl truthy; cbv iota;
    rewrite ?encodable_app, ?Ht; simpl in Hn, Hp; rewrite ?Hn, ?Hp;
    reflexivity.
Qed.

Lemma decoded_encodable data s :
  decode data = Some s -> encodable (strip s) = true.
Proof.
  intros H. destruct (decoded_encodes data s H) as [b Hb].
  unfold encodable. rewrite Hb. reflexivity.
Qed.

Ltac printable_leaf :=
  first
    [ reflexivity
    | assumption
    | eapply decoded_encodable; eassumption
    | apply payload_encodable; assumption ].

Lemma logged_lines_printable op s :
  printable_op op = true ->
  exists l,
    log_messages (after op s) = log_messages s ++ l
    /\ forallb printable l = true.
Proof.
  intros Hp. unfold after, run_op, exec. destruct op; simpl in Hp.
  all: run_m.
  all: rewrite <- ?app_assoc; simpl app.
  all: try (exists []; rewrite app_nil_r; split; reflexivity).
  all: eexists; (split; [reflexivity|]).
  all: cbn [forallb printable printable_arg printable_token printable_res
            andb] in *.
  all: rewrite ?andb_true_r in *.
  all: repeat match goal with
       | H : _ && _ = true |- _ => apply andb_true_iff in H; destruct H
       end.
  all: repeat (apply andb_true_iff; split).
  all: printable_leaf.
Qed.

Lemma run_lines_printable ops : forall s,
  forallb printable_op ops = true ->
  exists l,
    log_messages (run ops s) = log_messages s ++ l
    /\ forallb printable l = true.
Proof.
  induction ops as [|op ops IH]; intros s Hp; simpl in *.
  - exists []. rewrite app_nil_r. split; reflexivity.
  - apply andb_true_iff in Hp. destruct Hp as [Hp1 Hp2].
    destruct (logged_lines_printable op s Hp1) as (l1 & E1 & P1).
    destruct (IH (after op s) Hp2) as (l2 & E2 & P2).
    exists (l1 ++ l2). rewrite E2, E1, app_assoc, forallb_app, P1, P2.
    split; reflexivity.
Qed.

(** ** UTF-8 round trip *)

Ltac Zify.zify_post_hook ::= Z.to_euclidean_division_equations.

Lemma byte_of_to_N d : byte_of_N (Byte.to_N d) = d.
Proof. unfold byte_of_N. rewrite Byte.of_to_N. reflexivity. Qed.

Lemma leb_false a b : (b < a)%N -> N.leb a b = false.
Proof. apply N.leb_gt. Qed.

Lemma leb_true a b : (a <= b)%N -> N.leb a b = true.
Proof. apply N.leb_le. Qed.

Lemma between_false lo hi x :
  (x < lo \/ hi < x)%N -> between lo hi x = false.
Proof.
  intros H. unfold between. apply andb_false_iff.
  destruct H; [left | right]; apply N.leb_gt; assumption.
Qed.

Lemma encode_point_1 d :
  (Byte.to_N d <= 127)%N -> encode_point (Byte.to_N d) = Some [d].
Proof.
  intros H. unfold encode_point. rewrite leb_true by assumption.
  rewrite byte_of_to_N. reflexivity.
Qed.

Lemma encode_point_2 d0 d1 :
  (194 <= Byte.to_N d0 <= 223)%N -> (128 <= Byte.to_N d1 <= 191)%N ->
  encode_point (N.land (Byte.to_N d0) 31 * 64 + low6 (Byte.to_N d1))%N
  = Some [d0; d1].
Proof.
  intros H0 H1. rewrite low6_mod, land31_mod. unfold encode_point.
  rewrite leb_false by lia. rewrite leb_true by lia.
  replace (192 + _ / 64)%N with (Byte.to_N d0) by lia.
  replace (128 + _ mod 64)%N with (Byte.to_N d1) by lia.
  rewrite !byte_of_to_N. reflexivity.
Qed.

Lemma encode_point_3 d0 d1 d2 :
  (224 <= Byte.to_N d0 <= 239)%N ->
  ((if N.eqb (Byte.to_N d0) 224 then 160 else 128) <= Byte.to_N d1
   <= (if N.eqb (Byte.to_N d0) 237 then 159 else 191))%N ->
  (128 <= Byte.to_N d2 <= 191)%N ->
  encode_point (N.land (Byte.to_N d0) 15 * 4096 + low6 (Byte.to_N d1) * 64
                + low6 (Byte.to_N d2))%N
  = Some [d0; d1; d2].
Proof.
  intros H0 H1 H2. rewrite !low6_mod, land15_mod. unfold encode_point.
  destruct (N.eqb_spec (Byte.to_N d0) 224), (N.eqb_spec (Byte.to_N d0) 237).
  all: rewrite leb_false by lia; rewrite leb_false by lia.
  all: rewrite between_false by lia; rewrite leb_true by lia.
  all: replace (224 + _ / 4096)%N with (Byte.to_N d0) by lia.
  all: replace (128 + (_ / 64) mod 64)%N with (Byte.to_N d1) by lia.
  all: replace (128 + _ mod 64)%N with (Byte.to_N d2) by lia.
  all: rewrite !byte_of_to_N; reflexivity.
Qed.

Lemma encode_point_4 d0 d1 d2 d3 :
  (240 <= Byte.to_N d0 <= 244)%N ->
  ((if N.eqb (Byte.to_N d0) 240 then 144 else 128) <= Byte.to_N d1
   <= (if N.eqb (Byte.to_N d0) 244 then 143 else 191))%N ->
  (128 <= Byte.to_N d2 <= 191)%N -> (128 <= Byte.to_N d3 <= 191)%N ->
  encode_point (N.land (Byte.to_N d0) 7 * 262144
                + low6 (Byte.to_N d1) * 4096
                + low6 (Byte.to_N d2) * 64 + low6 (Byte.to_N d3))%N
  = Some [d0; d1; d2; d3].
Proof.
  intros H0 H1 H2 H3. rewrite !low6_mod, land7_mod. unfold encode_point.
  destruct (N.eqb_spec (Byte.to_N d0) 240), (N.eqb_spec (Byte.to_N d0) 244).
  all: rewrite leb_false by lia; rewrite leb_false by lia.
  all: rewrite between_false by lia; rewrite leb_false by lia.
  all: rewrite leb_true by lia.
  all: replace (240 + _ / 262144)%N with (Byte.to_N d0) by lia.
  all: replace (128 + (_ / 4096) mod 64)%N with (Byte.to_N d1) by lia.
  all: replace (128 + (_ / 64) mod 64)%N with (Byte.to_N d2) by lia.
  all: replace (128 + _ mod 64)%N with (Byte.to_N d3) by lia.
  all: rewrite !byte_of_to_N; reflexivity.
Qed.

Lemma decode_encode_fuel n : forall data s,
  (List.length data <= n)%nat ->
  decode data = Some s -> encode s = Some data.
Proof.
  unfold decode.
  induction n as [|n IH]; intros data s Hn.
  { destruct data; [|simpl in Hn; lia]. simpl. intros [= <-]. reflexivity. }
  destruct data as [|d0 r0]; [simpl; intros [= <-]; reflexivity|].
  simpl in Hn. cbn [map decode_utf8].
  destruct (N.leb (Byte.to_N d0) 127) eqn:E1.
  { destruct (decode_utf8 (map Byte.to_N r0)) eqn:D; [|discriminate].
    intros [= <-]. cbn [encode].
    rewrite encode_point_1 by (apply N.leb_le; assumption).
    rewrite (IH r0 _ ltac:(lia) D). reflexivity. }
  destruct (between 194 223 (Byte.to_N d0)) eqn:E2.
  { destruct r0 as [|d1 r1]; [discriminate|]. cbn [map].
    destruct (cont (Byte.to_N d1)) eqn:C1; [|discriminate].
    destruct (decode_utf8 (map Byte.to_N r1)) eqn:D; [|discriminate].
    intros [= <-]. cbn [encode].
    apply between_spec in E2, C1.
    rewrite encode_point_2 by assumption.
    rewrite (IH r1 _ ltac:(simpl in Hn; lia) D). reflexivity. }
  destruct (between 224 239 (Byte.to_N d0)) eqn:E3.
  { destruct r0 as [|d1 [|d2 r2]]; try discriminate. cbn [map].
    match goal with |- (if ?c then _ else _) = _ -> _ =>
      destruct c eqn:C end; [|discriminate].
    destruct (decode_utf8 (map Byte.to_N r2)) eqn:D; [|discriminate].
    intros [= <-]. cbn [encode].
    apply andb_true_iff in C. destruct C as [C1 C2].
    apply between_spec in E3, C1, C2.
    rewrite encode_point_3 by assumption.
    rewrite (IH r2 _ ltac:(simpl in Hn; lia) D). reflexivity. }
  destruct (between 240 244 (Byte.to_N d0)) eqn:E4; [|discriminate].
  destruct r0 as [|d1 [|d2 [|d3 r3]]]; try discriminate. cbn [map].
  match goal with |- (if ?c then _ else _) = _ -> _ =>
    destruct c eqn:C end; [|discriminate].
  destruct (decode_utf8 (map Byte.to_N r3)) eqn:D; [|discriminate].
  intros [= <-]. cbn [encode].
  apply andb_true_iff in C. destruct C as [C C3].
  apply andb_true_iff in C. destruct C as [C1 C2].
  apply between_spec in E4, C1, C2, C3.
  rewrite encode_point_4 by assumption.
  rewrite (IH r3 _ ltac:(simpl in Hn; lia) D). reflexivity.
Qed.

(** Encoding what [decode] produced gives the original bytes back. *)
Lemma decode_encode data s : decode data = Some s -> encode s = Some data.
Proof. apply (decode_encode_fuel _ _ _ (le_n _)). Qed.

Ltac Zify.zify_post_hook ::= idtac.

(** ** The token goes back byte for byte *)

Lemma claim_keeps_handles s t rd t' ch :
  _hold_char (snd (claim t rd t' s)) = _hold_char s
  /\ not_ready (snd (claim t rd t' s)) ch = not_ready s ch.
Proof. unfold not_ready. run_m; try congruence; auto. Qed.

Lemma hold_writes_token s tok t wr t' data :
  not_ready s (_hold_char s) = false ->
  accepted s t (Some tok) -> encode tok = Some data ->
  wrote_once s (snd (hold (Some tok) t wr t' s)) (_hold_char s) data.
Proof.
  intros Hready Ha He. ready Hready. unfold wrote_once.
  exists cl, c. split; [assumption | split; [assumption|]].
  run_v; rewrite ?Econ; reflexivity.
Qed.

(** X12. The token goes back byte for byte: if a claim reads bytes that
    decode to an 8-character text without surrounding whitespace, the
    claim returns that text, and a [hold] with it within 3 seconds
    writes exactly the bytes read to the hold characteristic. *)
Theorem hold_sends_back_claimed_bytes s b text t0 t1 t wr t' :
  lease_consistent s ->
  not_ready s (_claim_char s) = false -> claim_enabled s = true ->
  decode b = Some text -> strip text = text -> len text = 8 ->
  not_ready s (_hold_char s) = false -> t - t1 <= 3 ->
  fst (claim t0 (Return b) t1 s) = Return (Some text)
  /\ wrote_once (snd (claim t0 (Return b) t1 s))
       (snd (hold (Some text) t wr t' (snd (claim t0 (Return b) t1 s))))
       (_hold_char s) b.
Proof.
  intros Hc Hrc He Hd Hst Hl Hrh Ht.
  assert (Hl' : len (strip text) = 8) by (rewrite Hst; exact Hl).
  destruct (claim_stores_token s t0 b t1 text Hc Hrc He Hd Hl') as [H1 H2].
  rewrite Hst in H1, H2. split; [exact H1|].
  destruct (claim_keeps_handles s t0 (Return b) t1 (_hold_char s))
    as [Hh Hn].
  unfold lease in H2. injection H2 as Ha Hlt Hf.
  rewrite <- Hh. apply hold_writes_token.
  - rewrite Hh, Hn. exact Hrh.
  - apply accepted_iff. rewrite Ha, Hlt.
    split; [apply len_truthy, Hl | split; [reflexivity | exact Ht]].
  - apply decode_encode, Hd.
Qed.

Lemma hold_sends_back_claimed_bytes_witness :
  fst (claim 0 (Return [xc3; xa9; x41; x42; x43; x31; x32; x33; x34]) 0
         connected)
  = Return (Some [233; 65; 66; 67; 49; 50; 51; 52]%N)
  /\ wrote_once
       (snd (claim 0 (Return [xc3; xa9; x41; x42; x43; x31; x32; x33; x34])
               0 connected))
       (snd (hold (Some [233; 65; 66; 67; 49; 50; 51; 52]%N) 2 (Return tt) 2
               (snd (claim 0
                       (Return [xc3; xa9; x41; x42; x43; x31; x32; x33; x34])
                       0 connected))))
       (_hold_char connected)
       [xc3; xa9; x41; x42; x43; x31; x32; x33; x34].
Proof.
  apply (hold_sends_back_claimed_bytes connected
           [xc3; xa9; x41; x42; x43; x31; x32; x33; x34]
           [233; 65; 66; 67; 49; 50; 51; 52]%N 0 0 2 (Return tt) 2).
  - left. split; reflexivity.
  - reflexivity.
  - reflexivity.
  - reflexivity.
  - reflexivity.
  - reflexivity.
  - reflexivity.
  - vm_compute. discriminate.
Defined.

(** ** Reasoning about the whole object *)

Section Frames.
Context {B : Type} (f : Session -> B).

Lemma keeps_ret {A} (a : A) : keeps f (ret_s a).
Proof. intros x. reflexivity. Qed.

Lemma keeps_raise {A} e : keeps f (@raise_s A e).
Proof. intros x. reflexivity. Qed.

Lemma keeps_get : keeps f get_s.
Proof. intros x. reflexivity. Qed.

Lemma keeps_await {A} (r : Res A) : keeps f (await r).
Proof. intros x. destruct r; reflexivity. Qed.

Lemma keeps_bind {A C} (c : MS A) (k : A -> MS C) :
  keeps f c -> (forall a, keeps f (k a)) -> keeps f (bind_s c k).
Proof.
  intros Hc Hk x. unfold bind_s. specialize (Hc x).
  destruct (c x) as [[a | e] x']; simpl in *.
  - rewrite Hk. exact Hc.
  - exact Hc.
Qed.

Lemma keeps_try {A} (c : MS A) (h : PyExc -> MS A) :
  keeps f c -> (forall e, keeps f (h e)) -> keeps f (try_except_s c h).
Proof.
  intros Hc Hh x. unfold try_except_s. specialize (Hc x).
  destruct (c x) as [[a | e] x']; simpl in *.
  - exact Hc.
  - rewrite Hh. exact Hc.
Qed.

Lemma keeps_fold {A} (g : A -> MS unit) (l : list A) : forall acc,
  keeps f acc -> (forall u, keeps f (g u)) ->
  keeps f (fold_left (fun acc u => bind_s acc (fun _ => g u)) l acc).
Proof.
  induction l as [|u l IH]; intros acc Ha Hg; simpl; [exact Ha|].
  apply IH; [|exact Hg]. apply keeps_bind; [exact Ha | intros _; apply Hg].
Qed.
End Frames.

Lemma returns_ret {A} (a : A) : returns (ret_s a).
Proof. intros x. exists a. reflexivity. Qed.

Lemma returns_get : returns get_s.
Proof. intros x. exists x. reflexivity. Qed.

Lemma returns_bind {A C} (c : MS A) (k : A -> MS C) :
  returns c -> (forall a, returns (k a)) -> returns (bind_s c k).
Proof.
  intros Hc Hk x. unfold bind_s. destruct (Hc x) as [a Ha].
  destruct (c x) as [r x']; simpl in Ha; subst r. apply Hk.
Qed.

Lemma returns_try {A} (c : MS A) (h : PyExc -> MS A) :
  (forall e, returns (h e)) -> returns (try_except_s c h).
Proof.
  intros Hh x. unfold try_except_s.
  destruct (c x) as [[a | e] x']; [exists a; reflexivity | apply Hh].
Qed.

Lemma returns_log m : returns (log_s m).
Proof. intros x. exists tt. reflexivity. Qed.

Lemma returns_modify g : returns (modify_s g).
Proof. intros x. exists tt. reflexivity. Qed.

Lemma returns_lift_modify g : returns (lift (modify g)).
Proof. intros x. exists tt. reflexivity. Qed.

Ltac unfold_s :=
  unfold log_s, record_client_call, start_notify, stop_notify,
    client_connect, client_disconnect, log_found, lift, await,
    bind_s, ret_s, raise_s, get_s, modify_s, try_except_s in *.

Ltac leaf :=
  let x := fresh "x" in
  intros x; unfold_s;
  unfold guarded, handles, outside_discovery, lease, mark_connected in *;
  run_m; reflexivity.

Ltac keeps_step :=
  lazymatch goal with
  | |- keeps _ (bind_s _ _) => apply keeps_bind; [|intros ?]
  | |- keeps _ (try_except_s _ _) => apply keeps_try; [|intros ?]
  | |- keeps _ (ret_s _) => apply keeps_ret
  | |- keeps _ (raise_s _) => apply keeps_raise
  | |- keeps _ get_s => apply keeps_get
  | |- keeps _ (await _) => apply keeps_await
  | |- keeps _ (fold_left _ _ _) => apply keeps_fold; [|intros ?]
  | |- keeps _ (if ?b then _ else _) => destruct b
  | |- keeps _ (match ?o with _ => _ end) => destruct o
  | |- keeps _ _ => leaf
  end.

Ltac keeps_auto := repeat keeps_step.

Lemma discover_keeps services :
  keeps outside_discovery (_discover_characteristics services).
Proof. unfold _discover_characteristics. keeps_auto. Qed.

Lemma discover_returns services :
  returns (_discover_characteristics services).
Proof.
  unfold _discover_characteristics.
  apply returns_bind; [apply returns_get | intros x].
  destruct (negb (client_connected (svc x))); [apply returns_log|].
  apply returns_bind; [apply returns_log | intros _].
  apply returns_try. intros e.
  destruct (is_BleakError e); apply returns_log.
Qed.

Lemma start_status_keeps cb r :
  keeps outside_subscription (start_status_notifications cb r).
Proof. unfold start_status_notifications. keeps_auto. Qed.

Lemma stop_status_keeps r :
  keeps outside_subscription (stop_status_notifications r).
Proof. unfold stop_status_notifications. keeps_auto. Qed.

Lemma start_ssid_keeps cb r :
  keeps outside_subscription (start_ssid_notifications cb r).
Proof. unfold start_ssid_notifications. keeps_auto. Qed.

Lemma stop_ssid_keeps r :
  keeps outside_subscription (stop_ssid_notifications r).
Proof. unfold stop_ssid_notifications. keeps_auto. Qed.

Ltac unfold_sub :=
  unfold start_status_notifications, stop_status_notifications,
    start_ssid_notifications, stop_ssid_notifications, disconnect,
    _find_device, or_default, client_connected, is_some in *.

Ltac absurd_ready :=
  exfalso;
  match goal with
  | H : not_ready _ None = false |- _ =>
    apply ready_inv in H; destruct H as (? & ? & _ & _ & ?); discriminate
  end.

Ltac run_x := unfold_sub; unfold_s; run_k; try absurd_ready.

Lemma subscriptions_return cb r :
  returns (start_status_notifications cb r)
  /\ returns (stop_status_notifications r)
  /\ returns (start_ssid_notifications cb r)
  /\ returns (stop_ssid_notifications r).
Proof.
  repeat split; intros x; run_x; eexists; reflexivity.
Qed.

(** ** Notification subscriptions *)

(** X19. The subscription methods refuse when they do not apply: a stop
    with no handler stored, a start or stop on an object that is not
    connected or lacks the characteristic, and a start on a
    characteristic without the "notify" property return [False], issue
    no request and leave the handler attribute alone. *)
Theorem subscriptions_refuse_when_not_applicable :
  refuses_when_not_applicable start_status_notifications
    stop_status_notifications status_char_of _status_notification_handler
  /\ refuses_when_not_applicable start_ssid_notifications
       stop_ssid_notifications current_ssid_char_of
       _ssid_notification_handler.
Proof.
  unfold refuses_when_not_applicable, refused, status_char_of,
    current_ssid_char_of.
  split; intros x cb r; (split; [|split]).
  all: try (intros Hn; run_x; rewrite ?orb_true_r in *; try discriminate;
            repeat split; auto; fail).
  all: intros c Hc Hn; run_x; repeat split; auto.
Qed.

Lemma subscriptions_refuse_when_not_applicable_witness :
  refused _status_notification_handler linked_session
    (stop_status_notifications (Return tt) linked_session)
  /\ refused _ssid_notification_handler init_session
       (start_ssid_notifications None (Return tt) init_session).
Proof.
  split.
  - exact (proj1 (proj1 subscriptions_refuse_when_not_applicable
                    linked_session None (Return tt)) eq_refl).
  - exact (proj2 (proj1 (proj2 (proj2 subscriptions_refuse_when_not_applicable
                                  init_session None (Return tt))) eq_refl)).
Defined.

Lemma stop_status_effect :
  unregisters_only_on_success stop_status_notifications status_char_of
    _status_notification_handler.
Proof.
  unfold unregisters_only_on_success, status_char_of.
  intros x r c cb0 Hready Hc Hh; rewrite Hc in Hready.
  run_x; repeat split; auto.
Qed.

Lemma stop_ssid_effect :
  unregisters_only_on_success stop_ssid_notifications current_ssid_char_of
    _ssid_notification_handler.
Proof.
  unfold unregisters_only_on_success, current_ssid_char_of.
  intros x r c cb0 Hready Hc Hh; rewrite Hc in Hready.
  run_x; repeat split; auto.
Qed.

Lemma keeps_link x x' ch :
  outside_subscription x' = outside_subscription x ->
  (ch = status_char_of \/ ch = current_ssid_char_of) ->
  ch x' = ch x /\ not_ready (svc x') (ch x') = not_ready (svc x) (ch x).
Proof.
  unfold outside_subscription, handles, not_ready.
  intros [= Hcl _ _ _ _ _ _ _ _ H4 _ H6 _] [-> | ->];
    unfold status_char_of, current_ssid_char_of; rewrite Hcl.
  - rewrite H6. auto.
  - rewrite H4. auto.
Qed.

(** X20. A start on a connected object whose characteristic supports
    notification stores the handler (the given callback, else the
    default) before it subscribes, and keeps it stored when the
    subscription fails: the handler attribute is set, one start request
    naming that handler is issued, the result is [True] exactly when the
    request returned, and a stop that follows always issues a stop
    request. *)
Theorem start_registers_before_subscribing :
  registers_before_subscribing start_status_notifications
    stop_status_notifications status_char_of _status_notification_handler
    DefaultStatusHandler
  /\ registers_before_subscribing start_ssid_notifications
       stop_ssid_notifications current_ssid_char_of
       _ssid_notification_handler DefaultSsidHandler.
Proof.
  unfold registers_before_subscribing.
  split; intros x cb r c Hready Hc Hn.
  - destruct (keeps_link x (snd (start_status_notifications cb r x))
                status_char_of (start_status_keeps cb r x) (or_introl eq_refl))
      as [Hc' Hr'].
    rewrite Hready in Hr'. rewrite Hc in Hc'.
    assert (H : _status_notification_handler
                  (snd (start_status_notifications cb r x))
                = Some (or_default cb DefaultStatusHandler)
                /\ client_calls (snd (start_status_notifications cb r x))
                   = CallStartNotify (uuid c)
                       (Some (or_default cb DefaultStatusHandler))
                       :: client_calls x
                /\ fst (start_status_notifications cb r x)
                   = Return (match r with
                             | Return _ => true | Raise _ => false end)).
    { clear Hc' Hr'. unfold status_char_of in *. rewrite Hc in Hready.
      run_x; repeat split; auto. }
    destruct H as (H1 & H2 & H3).
    split; [exact H1 | split; [exact H2 | split; [exact H3|]]].
    intros r'. apply (stop_status_effect _ r' c _ Hr' Hc' H1).
  - destruct (keeps_link x (snd (start_ssid_notifications cb r x))
                current_ssid_char_of (start_ssid_keeps cb r x)
                (or_intror eq_refl))
      as [Hc' Hr'].
    rewrite Hready in Hr'. rewrite Hc in Hc'.
    assert (H : _ssid_notification_handler
                  (snd (start_ssid_notifications cb r x))
                = Some (or_default cb DefaultSsidHandler)
                /\ client_calls (snd (start_ssid_notifications cb r x))
                   = CallStartNotify (uuid c)
                       (Some (or_default cb DefaultSsidHandler))
                       :: client_calls x
                /\ fst (start_ssid_notifications cb r x)
                   = Return (match r with
                             | Return _ => true | Raise _ => false end)).
    { clear Hc' Hr'. unfold current_ssid_char_of in *. rewrite Hc in Hready.
      run_x; repeat split; auto. }
    destruct H as (H1 & H2 & H3).
    split; [exact H1 | split; [exact H2 | split; [exact H3|]]].
    intros r'. apply (stop_ssid_effect _ r' c _ Hr' Hc' H1).
Qed.

Lemma start_registers_before_subscribing_witness :
  _status_notification_handler
    (snd (start_status_notifications None (Raise (BleakError (lit "busy")))
            linked_session))
  = Some DefaultStatusHandler
  /\ fst (start_status_notifications None (Raise (BleakError (lit "busy")))
            linked_session)
     = Return false.
Proof.
  destruct (proj1 start_registers_before_subscribing linked_session None
              (Raise (BleakError (lit "busy")))
              (mkChar "A4955678-C5B1-4B44-B512-1370F02D74D6"
                 ["read"%string; "notify"%string])
              eq_refl eq_refl eq_refl) as (H1 & _ & H3 & _).
  split; [exact H1 | exact H3].
Defined.

(** X21. A stop on a connected object with a handler stored issues one
    stop request; it clears the handler and returns [True] when the
    request returns, and keeps the handler and returns [False] when the
    request raises. *)
Theorem stop_unregisters_only_on_success :
  unregisters_only_on_success stop_status_notifications status_char_of
    _status_notification_handler
  /\ unregisters_only_on_success stop_ssid_notifications
       current_ssid_char_of _ssid_notification_handler.
Proof. split; [apply stop_status_effect | apply stop_ssid_effect]. Qed.

Lemma stop_unregisters_only_on_success_witness :
  fst (stop_status_notifications (Raise (BleakError (lit "busy")))
         (snd (start_status_notifications None (Return tt) linked_session)))
  = Return false
  /\ _status_notification_handler
       (snd (stop_status_notifications (Raise (BleakError (lit "busy")))
               (snd (start_status_notifications None (Return tt)
                       linked_session))))
     = Some DefaultStatusHandler.
Proof.
  apply (proj1 stop_unregisters_only_on_success
           (snd (start_status_notifications None (Return tt) linked_session))
           (Raise (BleakError (lit "busy")))
           (mkChar "A4955678-C5B1-4B44-B512-1370F02D74D6"
              ["read"%string; "notify"%string])
           DefaultStatusHandler eq_refl eq_refl eq_refl).
Defined.

(** ** Finding the device *)

Lemma is_target_iff d : is_target d = true <-> Device.name d = Some DEVICE_NAME.
Proof. apply opt_str_eqb_eq. Qed.

Lemma find_target_none devices :
  find is_target devices = None <-> none_named devices.
Proof.
  unfold none_named. induction devices as [|d l IH]; simpl.
  - split; [constructor | reflexivity].
  - destruct (is_target d) eqn:E.
    + split; [discriminate|]. intros H. inversion H; subst.
      apply is_target_iff in E. contradiction.
    + rewrite IH. split.
      * intros H. constructor; [|exact H].
        intros Hn. apply is_target_iff in Hn. congruence.
      * intros H. inversion H; assumption.
Qed.

Lemma find_target_some devices d :
  find is_target devices = Some d <->
  exists pre post,
    devices = pre ++ d :: post /\ Device.name d = Some DEVICE_NAME
    /\ none_named pre.
Proof.
  unfold none_named. induction devices as [|d0 l IH]; simpl.
  - split; [discriminate|]. intros (pre & post & H & _).
    destruct pre; discriminate.
  - destruct (is_target d0) eqn:E.
    + split.
      * intros [= <-]. exists [], l. apply is_target_iff in E.
        split; [reflexivity | split; [exact E | constructor]].
      * intros (pre & post & H & Hn & Hp). destruct pre as [|p pre].
        -- injection H as -> _. reflexivity.
        -- injection H as <- _. inversion Hp; subst.
           apply is_target_iff in E. contradiction.
    + rewrite IH. split.
      * intros (pre & post & -> & Hn & Hp). exists (d0 :: pre), post.
        split; [reflexivity | split; [exact Hn|]].
        constructor; [|exact Hp].
        intros Hx. apply is_target_iff in Hx. congruence.
      * intros (pre & post & H & Hn & Hp). destruct pre as [|p pre].
        -- injection H as <- _. apply is_target_iff in Hn. congruence.
        -- injection H as _ ->. inversion Hp; subst.
           exists pre, post. auto.
Qed.

Lemma find_device_result scan x :
  outside_log (snd (_find_device scan x)) = outside_log x
  /\ fst (_find_device scan x)
     = match scan with
       | Raise e => Raise e
       | Return devices =>
         Return (option_map Device.address (find is_target devices))
       end.
Proof.
  unfold outside_log, outside_subscription, guarded, handles, lease.
  run_x; auto.
Qed.

(** X13. [_find_device] leaves everything but the log alone.  If the scan
    raises, the exception propagates; otherwise it returns the address
    of the first scanned device whose name equals [DEVICE_NAME], and
    [None] exactly when no scanned device has that name (a device
    without a name never matches). *)
Theorem find_device_picks_first_match scan x :
  outside_log (snd (_find_device scan x)) = outside_log x
  /\ match scan with
     | Raise e => fst (_find_device scan x) = Raise e
     | Return devices =>
       (forall a,
          fst (_find_device scan x) = Return (Some a) <->
          exists pre d post,
            devices = pre ++ d :: post
            /\ Device.name d = Some DEVICE_NAME /\ Device.address d = a
            /\ none_named pre)
       /\ (fst (_find_device scan x) = Return None <-> none_named devices)
     end.
Proof.
  destruct (find_device_result scan x) as [H1 H2].
  split; [exact H1|]. destruct scan as [devices | e]; [|exact H2].
  rewrite H2. split.
  - intros a. split.
    + destruct (find is_target devices) as [d|] eqn:E; [|discriminate].
      intros [= <-]. apply find_target_some in E.
      destruct E as (pre & post & Hd & Hn & Hp). exists pre, d, post. auto.
    + intros (pre & d & post & Hd & Hn & <- & Hp).
      assert (E : find is_target devices = Some d).
      { apply find_target_some. exists pre, post. auto. }
      rewrite E. reflexivity.
  - rewrite <- find_target_none.
    destruct (find is_target devices); simpl; split; intros H;
      try discriminate H; reflexivity.
Qed.

(** ** Connecting *)

Lemma keeps_client_of {A} (c : MS A) x :
  outside_subscription (snd (c x)) = outside_subscription x ->
  client (svc (snd (c x))) = client (svc x)
  /\ address (snd (c x)) = address x
  /\ guarded (snd (c x)) = guarded x.
Proof.
  unfold outside_subscription. intros H.
  split; [exact (f_equal (fun p => fst (fst (fst p))) H)|].
  split; [exact (f_equal snd H)|].
  exact (f_equal (fun p => snd (fst (fst p))) H).
Qed.

Lemma discover_effect services x :
  exists x',
    _discover_characteristics services x = (Return tt, x')
    /\ client (svc x') = client (svc x) /\ address x' = address x
    /\ guarded x' = guarded x.
Proof.
  destruct (discover_returns services x) as [[] Hr].
  pose proof (discover_keeps services x) as Hk.
  destruct (_discover_characteristics services x) as [r x'].
  simpl in *. subst r. exists x'. split; [reflexivity|].
  unfold outside_discovery in Hk.
  split; [exact (f_equal (fun p => fst (fst (fst (fst (fst p))))) Hk)|].
  split; [exact (f_equal (fun p => snd (fst (fst (fst p)))) Hk)|].
  exact (f_equal (fun p => snd (fst (fst (fst (fst p))))) Hk).
Qed.

Lemma start_status_effect cb r x :
  exists b x',
    start_status_notifications cb r x = (Return b, x')
    /\ client (svc x') = client (svc x) /\ address x' = address x
    /\ guarded x' = guarded x.
Proof.
  destruct (proj1 (subscriptions_return cb r) x) as [b Hr].
  pose proof (keeps_client_of _ x (start_status_keeps cb r x)) as Hk.
  destruct (start_status_notifications cb r x) as [r0 x'].
  simpl in *. subst r0. exists b, x'. auto.
Qed.

Lemma start_ssid_effect cb r x :
  exists b x',
    start_ssid_notifications cb r x = (Return b, x')
    /\ client (svc x') = client (svc x) /\ address x' = address x
    /\ guarded x' = guarded x.
Proof.
  destruct (proj1 (proj2 (proj2 (subscriptions_return cb r))) x) as [b Hr].
  pose proof (keeps_client_of _ x (start_ssid_keeps cb r x)) as Hk.
  destruct (start_ssid_notifications cb r x) as [r0 x'].
  simpl in *. subst r0. exists b, x'. auto.
Qed.

Ltac simp_c :=
  cbn -[decode strip encode contains len lit ssid_payload has_property
        Z.gtb Z.eqb Z.sub Z.le Z.lt Z.ge Z.gt Z.compare
        _discover_characteristics start_status_notifications
        start_ssid_notifications find is_target guarded] in *.

Ltac call_c :=
  match goal with
  | |- context [_discover_characteristics ?sv ?X] =>
    let x' := fresh "x" in
    let E := fresh "E" in
    destruct (discover_effect sv X) as (x' & E & ? & ? & ?); rewrite E
  | |- context [start_status_notifications ?cb ?r ?X] =>
    let x' := fresh "x" in
    let E := fresh "E" in
    destruct (start_status_effect cb r X) as (? & x' & E & ? & ? & ?);
    rewrite E
  | |- context [start_ssid_notifications ?cb ?r ?X] =>
    let x' := fresh "x" in
    let E := fresh "E" in
    destruct (start_ssid_effect cb r X) as (? & x' & E & ? & ? & ?);
    rewrite E
  end.

Ltac unfold_c :=
  unfold connect, _find_device, client_connected in *; unfold_s;
  unfold _log, modify, mark_connected in *.

Ltac run_c := unfold_c; simp_c; repeat (first [call_c | case_k]; simp_c).

Lemma connect_connected scan conn services s1 s2 d x :
  client_connected (svc x) = true ->
  fst (connect scan conn services s1 s2 d x) = Return true
  /\ outside_log (snd (connect scan conn services s1 s2 d x)) = outside_log x.
Proof.
  intros Hc.
  assert (E : connect scan conn services s1 s2 d x
              = (Return true, snd (log_s (Msg "Already connected." []) x))).
  { unfold connect. unfold bind_s at 1. unfold get_s at 1. rewrite Hc.
    reflexivity. }
  rewrite E. split; reflexivity.
Qed.

Lemma connect_fresh scan conn services s1 s2 d x :
  client_connected (svc x) = false ->
  guarded (snd (connect scan conn services s1 s2 d x)) = guarded x
  /\ match scan with
     | Raise e =>
       fst (connect scan conn services s1 s2 d x) = Raise e
       /\ client (svc (snd (connect scan conn services s1 s2 d x)))
          = client (svc x)
       /\ address (snd (connect scan conn services s1 s2 d x)) = address x
     | Return devices =>
       address (snd (connect scan conn services s1 s2 d x))
       = option_map Device.address (find is_target devices)
       /\ if truthy_address
               (option_map Device.address (find is_target devices))
          then
            match conn with
            | Return _ =>
              fst (connect scan conn services s1 s2 d x) = Return true
              /\ client (svc (snd (connect scan conn services s1 s2 d x)))
                 = Some (mkClient true [])
            | Raise _ =>
              fst (connect scan conn services s1 s2 d x) = Return false
              /\ client (svc (snd (connect scan conn services s1 s2 d x)))
                 = None
            end
          else
            fst (connect scan conn services s1 s2 d x) = Return false
            /\ client (svc (snd (connect scan conn services s1 s2 d x)))
               = client (svc x)
     end.
Proof.
  intros Hc. unfold client_connected in Hc.
  run_c.
  all: unfold guarded, lease in *; simp_m.
  all: repeat split; congruence.
Qed.

(** X14. [connect] on an object that is already connected returns [True]
    and changes nothing but the log: no scan, no new client, no
    request. *)
Theorem connect_when_connected_is_a_no_op scan conn services s1 s2 d x :
  client_connected (svc x) = true ->
  fst (connect scan conn services s1 s2 d x) = Return true
  /\ outside_log (snd (connect scan conn services s1 s2 d x)) = outside_log x.
Proof. apply connect_connected. Qed.

Lemma connect_when_connected_is_a_no_op_witness :
  fst (connect (Return sample_scan) (Return tt) (Return sample_services)
         (Return tt) (Return tt) (Return tt) linked_session) = Return true
  /\ outside_log
       (snd (connect (Return sample_scan) (Return tt) (Return sample_services)
               (Return tt) (Return tt) (Return tt) linked_session))
     = outside_log linked_session.
Proof.
  apply (connect_when_connected_is_a_no_op (Return sample_scan) (Return tt)
           (Return sample_services) (Return tt) (Return tt) (Return tt)
           linked_session).
  reflexivity.
Defined.

(** X15. [connect] on an object that is not connected never touches the
    lease, the status or the network name.  If the scan raises, the
    exception propagates and client and address stay.  Otherwise the
    address becomes that of the first device named [DEVICE_NAME], or
    [None]; without a usable address the call returns [False] and the
    client stays; with one, it returns [True] with a new connected
    client when the client's connect returns, whatever discovery and
    the subscriptions do, and [False] with the client cleared when it
    raises. *)
Theorem fresh_connect_outcome scan conn services s1 s2 d x :
  client_connected (svc x) = false ->
  guarded (snd (connect scan conn services s1 s2 d x)) = guarded x
  /\ match scan with
     | Raise e =>
       fst (connect scan conn services s1 s2 d x) = Raise e
       /\ client (svc (snd (connect scan conn services s1 s2 d x)))
          = client (svc x)
       /\ address (snd (connect scan conn services s1 s2 d x)) = address x
     | Return devices =>
       address (snd (connect scan conn services s1 s2 d x))
       = option_map Device.address (find is_target devices)
       /\ if truthy_address
               (option_map Device.address (find is_target devices))
          then
            match conn with
            | Return _ =>
              fst (connect scan conn services s1 s2 d x) = Return true
              /\ client (svc (snd (connect scan conn services s1 s2 d x)))
                 = Some (mkClient true [])
            | Raise _ =>
              fst (connect scan conn services s1 s2 d x) = Return false
              /\ client (svc (snd (connect scan conn services s1 s2 d x)))
                 = None
            end
          else
            fst (connect scan conn services s1 s2 d x) = Return false
            /\ client (svc (snd (connect scan conn services s1 s2 d x)))
               = client (svc x)
     end.
Proof. apply connect_fresh. Qed.

Lemma fresh_connect_outcome_witness :
  address (snd (connect (Return sample_scan) (Return tt)
                  (Raise (BleakError (lit "no services")))
                  (Return tt) (Return tt) (Return tt) init_session))
  = Some "AA:BB:CC:DD:EE:FF"%string
  /\ fst (connect (Return sample_scan) (Return tt)
            (Raise (BleakError (lit "no services")))
            (Return tt) (Return tt) (Return tt) init_session)
     = Return true
  /\ client (svc (snd (connect (Return sample_scan) (Return tt)
                         (Raise (BleakError (lit "no services")))
                         (Return tt) (Return tt) (Return tt) init_session)))
     = Some (mkClient true []).
Proof.
  destruct (fresh_connect_outcome (Return sample_scan) (Return tt)
              (Raise (BleakError (lit "no services")))
              (Return tt) (Return tt) (Return tt) init_session eq_refl)
    as (_ & H1 & H2 & H3).
  split; [exact H1 | split; [exact H2 | exact H3]].
Defined.

(** ** Discovering the characteristics *)

Lemma log_loop_keeps {B} (f : Session -> B) (us : list string) acc :
  (forall m x, f (snd (log_s m x)) = f x) ->
  keeps f acc ->
  keeps f
    (fold_left
       (fun acc u =>
          bind_s acc
            (fun _ => log_s (Msg " Found service: {service.uuid}"
                                 [AStr (lit u)])))
       us acc).
Proof.
  intros Hl Ha. apply keeps_fold; [exact Ha|].
  intros u x. apply Hl.
Qed.

Lemma service_log_keeps_handles (us : list string) x :
  handles
    (snd (fold_left
            (fun acc u =>
               bind_s acc
                 (fun _ => log_s (Msg " Found service: {service.uuid}"
                                      [AStr (lit u)])))
            us (ret_s tt) x))
  = handles x.
Proof.
  apply (keeps_fold handles
           (fun u => log_s (Msg " Found service: {service.uuid}"
                                [AStr (lit u)]))).
  - intros y. reflexivity.
  - intros u y. reflexivity.
Qed.

Lemma snd_bind_get {B} (k : Session -> MS B) x :
  snd (bind_s get_s k x) = snd (k x x).
Proof. reflexivity. Qed.

Lemma snd_bind_await {A B} (r : Res A) (k : A -> MS B) x :
  snd (bind_s (await r) k x)
  = match r with Return a => snd (k a x) | Raise _ => x end.
Proof. destruct r; reflexivity. Qed.

Lemma snd_bind_log {B} m (k : unit -> MS B) x :
  snd (bind_s (log_s m) k x) = snd (k tt (snd (log_s m x))).
Proof. reflexivity. Qed.

Lemma snd_bind_set {B} g (k : unit -> MS B) x :
  snd (bind_s (lift (modify g)) k x) = snd (k tt (set_svc (g (svc x)) x)).
Proof. reflexivity. Qed.

Lemma handles_try {A} (body : MS A) h x :
  (forall e, keeps handles (h e)) ->
  handles (snd (try_except_s body h x)) = handles (snd (body x)).
Proof.
  intros Hh. unfold try_except_s.
  destruct (body x) as [[a|e] y]; [reflexivity | apply Hh].
Qed.

Lemma handles_log m x : handles (snd (log_s m x)) = handles x.
Proof. reflexivity. Qed.

Lemma discover_handles services x :
  handles (snd (_discover_characteristics services x))
  = if client_connected (svc x) then
      match services with
      | Return svcs =>
        match get_service svcs AMB82_SERVICE_UUID with
        | Return (Some amb) =>
          lookup_all (get_characteristic amb) CHAR_UUIDS (handles x)
        | _ => handles x
        end
      | Raise _ => handles x
      end
    else handles x.
Proof.
  unfold _discover_characteristics. rewrite snd_bind_get. cbv beta.
  destruct (client_connected (svc x)); [|reflexivity].
  cbn [negb]. cbv beta iota. rewrite snd_bind_log.
  rewrite handles_try
    by (intros e; destruct (is_BleakError e); intros y; reflexivity).
  rewrite snd_bind_await. destruct services as [svcs|e]; [|reflexivity].
  rewrite snd_bind_await.
  destruct (get_service svcs AMB82_SERVICE_UUID) as [[amb|]|e];
    [| |reflexivity].
  - rewrite snd_bind_log. unfold CHAR_UUIDS.
    unfold handles at 2. cbn [lookup_all].
    repeat (rewrite snd_bind_await;
            match goal with
            | |- context [get_characteristic amb ?u] =>
              destruct (get_characteristic amb u); [rewrite snd_bind_set|]
            end; [|reflexivity]).
    match goal with
    | |- handles (snd (?tail ?X)) = _ =>
      assert (K : keeps handles tail) by keeps_auto; rewrite (K X)
    end.
    reflexivity.
  - rewrite snd_bind_log. rewrite service_log_keeps_handles. reflexivity.
Qed.

(** X16. [_discover_characteristics] always returns and changes nothing
    but the log and the six handles.  Without a connected client, when
    the service table cannot be fetched or when the AMB82 service is
    missing, the handles stay; otherwise they are looked up one after
    the other, and the first lookup that raises ends the sequence,
    leaving the later handles as they were. *)
Theorem discovery_outcome services x :
  fst (_discover_characteristics services x) = Return tt
  /\ outside_discovery (snd (_discover_characteristics services x))
     = outside_discovery x
  /\ handles (snd (_discover_characteristics services x))
     = if client_connected (svc x) then
         match services with
         | Return svcs =>
           match get_service svcs AMB82_SERVICE_UUID with
           | Return (Some amb) =>
             lookup_all (get_characteristic amb) CHAR_UUIDS (handles x)
           | _ => handles x
           end
         | Raise _ => handles x
         end
       else handles x.
Proof.
  split; [|split; [apply discover_keeps | apply discover_handles]].
  destruct (discover_returns services x) as [[] H]. exact H.
Qed.

(** ** Disconnecting *)

Lemma disconnect_effect disc x :
  handles (snd (disconnect disc x)) = handles x
  /\ handlers (snd (disconnect disc x)) = handlers x
  /\ address (snd (disconnect disc x)) = address x
  /\ if client_connected (svc x) then
       client_calls (snd (disconnect disc x))
       = CallDisconnect :: client_calls x
       /\ match disc with
          | Return _ =>
            fst (disconnect disc x) = Return tt
            /\ client (svc (snd (disconnect disc x))) = None
            /\ guarded (snd (disconnect disc x)) = guarded_defaults
          | Raise e =>
            fst (disconnect disc x) = Raise e
            /\ client (svc (snd (disconnect disc x))) = client (svc x)
            /\ guarded (snd (disconnect disc x)) = guarded x
          end
     else
       client_calls (snd (disconnect disc x)) = client_calls x
       /\ fst (disconnect disc x) = Return tt
       /\ client (svc (snd (disconnect disc x))) = None
       /\ guarded (snd (disconnect disc x)) = guarded_defaults.
Proof.
  unfold handles, handlers, guarded, guarded_defaults, lease.
  unfold disconnect, client_connected. unfold_s. unfold_m.
  unfold mark_connected. run_m; repeat split; congruence.
Qed.

(** X17. [disconnect] keeps the handles, the handlers and the address.
    On a connected object it issues one disconnect request; when that
    returns, the client is cleared and the lease, the status and the
    network name are back at their defaults; when it raises, the
    exception propagates and client and lease stay as they were.  On an
    object that is not connected it issues nothing, clears the client
    and restores the defaults. *)
Theorem disconnect_outcome disc x :
  handles (snd (disconnect disc x)) = handles x
  /\ handlers (snd (disconnect disc x)) = handlers x
  /\ address (snd (disconnect disc x)) = address x
  /\ if client_connected (svc x) then
       client_calls (snd (disconnect disc x))
       = CallDisconnect :: client_calls x
       /\ match disc with
          | Return _ =>
            fst (disconnect disc x) = Return tt
            /\ client (svc (snd (disconnect disc x))) = None
            /\ guarded (snd (disconnect disc x)) = guarded_defaults
          | Raise e =>
            fst (disconnect disc x) = Raise e
            /\ client (svc (snd (disconnect disc x))) = client (svc x)
            /\ guarded (snd (disconnect disc x)) = guarded x
          end
     else
       client_calls (snd (disconnect disc x)) = client_calls x
       /\ fst (disconnect disc x) = Return tt
       /\ client (svc (snd (disconnect disc x))) = None
       /\ guarded (snd (disconnect disc x)) = guarded_defaults.
Proof. apply disconnect_effect. Qed.

(** Without a client every request is refused before it reaches the
    transport. *)
Lemma refused_without_client s :
  client s = None ->
  (forall t rd t', claim t rd t' s
     = (Return None,
        snd (_log (Msg "Claim failed: Not connected or claim characteristic not found." []) s)))
  /\ (forall tok t wr t', fst (hold tok t wr t' s) = Return false
        /\ client (snd (hold tok t wr t' s)) = None)
  /\ (forall tok n p t wr t', fst (ssid tok n p t wr t' s) = Return false
        /\ client (snd (ssid tok n p t wr t' s)) = None)
  /\ (forall tok t wr t', fst (wipe tok t wr t' s) = Return false
        /\ client (snd (wipe tok t wr t' s)) = None)
  /\ (forall rd, fst (read_status rd s) = Return (lit "Error")
        /\ client (snd (read_status rd s)) = None)
  /\ (forall rd, fst (read_current_ssid rd s) = Return (lit "Error")
        /\ client (snd (read_current_ssid rd s)) = None).
Proof.
  intros Hn.
  assert (Hr : forall ch, not_ready s ch = true)
    by (intros ch; unfold not_ready; rewrite Hn; reflexivity).
  repeat split; intros.
  all: unfold_v; simp_v; rewrite ?Hr; simp_v; rewrite ?Hn; reflexivity.
Qed.

(** X18. After a [disconnect] that returned, no method reaches the
    device: [claim] returns [None], [hold], [ssid] and [wipe] return
    [False], both reads return "Error", and none of them creates a
    client. *)
Theorem nothing_reaches_the_device_after_disconnect disc x :
  fst (disconnect disc x) = Return tt ->
  let s := svc (snd (disconnect disc x)) in
  (forall t rd t', fst (claim t rd t' s) = Return None
      /\ client (snd (claim t rd t' s)) = None)
  /\ (forall tok t wr t', fst (hold tok t wr t' s) = Return false
        /\ client (snd (hold tok t wr t' s)) = None)
  /\ (forall tok n p t wr t', fst (ssid tok n p t wr t' s) = Return false
        /\ client (snd (ssid tok n p t wr t' s)) = None)
  /\ (forall tok t wr t', fst (wipe tok t wr t' s) = Return false
        /\ client (snd (wipe tok t wr t' s)) = None)
  /\ (forall rd, fst (read_status rd s) = Return (lit "Error")
        /\ client (snd (read_status rd s)) = None)
  /\ (forall rd, fst (read_current_ssid rd s) = Return (lit "Error")
        /\ client (snd (read_current_ssid rd s)) = None).
Proof.
  intros Hret s.
  assert (Hn : client s = None).
  { subst s. revert Hret.
    unfold disconnect, client_connected. unfold_s. unfold_m.
    unfold mark_connected. run_m; try discriminate; reflexivity. }
  destruct (refused_without_client s Hn) as (H1 & H2).
  split; [|exact H2].
  intros t rd t'. rewrite H1. split; [reflexivity | exact Hn].
Qed.

Lemma nothing_reaches_the_device_after_disconnect_witness :
  fst (claim 0 (Return (blit "AbC123Xy")) 0
         (svc (snd (disconnect (Return tt) linked_session)))) = Return None
  /\ client (snd (claim 0 (Return (blit "AbC123Xy")) 0
                    (svc (snd (disconnect (Return tt) linked_session)))))
     = None.
Proof.
  apply (proj1 (nothing_reaches_the_device_after_disconnect (Return tt)
                  linked_session eq_refl)).
Defined.

(** ** The lease invariant on the whole object *)

Lemma guarded_consistent x x' :
  guarded x' = guarded x ->
  lease_consistent (svc x) -> lease_consistent (svc x').
Proof.
  unfold guarded, lease, lease_consistent.
  intros [= H1 _ H3 _ _]. rewrite H1, H3. auto.
Qed.

Lemma discover_guarded services x :
  guarded (snd (_discover_characteristics services x)) = guarded x.
Proof.
  exact (f_equal (fun p => snd (fst (fst (fst (fst p)))))
           (discover_keeps services x)).
Qed.

Lemma connect_guarded scan conn services s1 s2 d x :
  guarded (snd (connect scan conn services s1 s2 d x)) = guarded x.
Proof.
  destruct (client_connected (svc x)) eqn:Hc.
  - destruct (connect_connected scan conn services s1 s2 d x Hc)
      as [_ H].
    exact (f_equal (fun p => snd (fst (fst (fst (fst (fst p)))))) H).
  - apply connect_fresh, Hc.
Qed.

Lemma after_s_consistent op x :
  lease_consistent (svc x) -> lease_consistent (svc (after_s op x)).
Proof.
  intros Hc. destruct op; simpl.
  - apply step_consistent, Hc.
  - apply (guarded_consistent x); [apply connect_guarded | exact Hc].
  - destruct (disconnect_effect disc x) as (_ & _ & _ & H).
    destruct (client_connected (svc x)).
    + destruct H as [_ H]. destruct disc as [u|e].
      * destruct H as (_ & _ & H). unfold guarded, guarded_defaults, lease in H.
        injection H as H1 _ H3 _ _. left. auto.
      * destruct H as (_ & _ & H).
        apply (guarded_consistent x); assumption.
    + destruct H as (_ & _ & _ & H).
      unfold guarded, guarded_defaults, lease in H.
      injection H as H1 _ H3 _ _. left. auto.
  - apply (guarded_consistent x); [apply discover_guarded | exact Hc].
  - apply (guarded_consistent x); [|exact Hc].
    apply (keeps_client_of _ x (start_status_keeps callback r x)).
  - apply (guarded_consistent x); [|exact Hc].
    apply (keeps_client_of _ x (stop_status_keeps r x)).
  - apply (guarded_consistent x); [|exact Hc].
    apply (keeps_client_of _ x (start_ssid_keeps callback r x)).
  - apply (guarded_consistent x); [|exact Hc].
    apply (keeps_client_of _ x (stop_ssid_keeps r x)).
Qed.

Lemma run_s_consistent ops : forall x,
  lease_consistent (svc x) -> lease_consistent (svc (run_s ops x)).
Proof.
  induction ops as [|op ops IH]; intros x Hc; simpl; [exact Hc|].
  apply IH, after_s_consistent, Hc.
Qed.

(** X22. The lease invariant holds for the whole object: after any
    sequence of connects, disconnects, discoveries, subscription calls
    and operations on the lease, starting from a new object, the lease
    is consistent, at most one token is accepted at any time, and
    claiming is disabled whenever a token is accepted. *)
Theorem whole_object_lease_invariant ops now :
  let s := svc (run_s ops init_session) in
  lease_consistent s
  /\ (forall t1 t2, accepted s now t1 -> accepted s now t2 -> t1 = t2)
  /\ (forall t, accepted s now t -> claim_enabled s = false).
Proof.
  intros s.
  assert (Hc : lease_consistent s)
    by (apply run_s_consistent, init_consistent).
  split; [exact Hc | split].
  - intros t1 t2 H1 H2. apply accepted_iff in H1, H2.
    destruct H1 as (_ & -> & _), H2 as (_ & -> & _). reflexivity.
  - intros t Ha. destruct (accepted_stored _ _ _ Hc Ha) as (? & _ & _ & Hf).
    exact Hf.
Qed.

(** ** A stored token stays until a reset, a disconnect or a marker
    notification *)

Lemma guarded_token x x' tok :
  guarded x' = guarded x ->
  active_token (svc x) = Some tok -> active_token (svc x') = Some tok.
Proof.
  unfold guarded, lease. intros [= H1 _ _ _ _]. rewrite H1. auto.
Qed.

Lemma keeps_token_s_step op x tok :
  lease_consistent (svc x) -> active_token (svc x) = Some tok ->
  keeps_token_s op = true -> active_token (svc (after_s op x)) = Some tok.
Proof.
  intros Hc Hs Hk. destruct op; simpl in *; try discriminate Hk.
  - apply keeps_token_step; assumption.
  - apply (guarded_token x); [apply connect_guarded | exact Hs].
  - apply (guarded_token x); [apply discover_guarded | exact Hs].
  - apply (guarded_token x); [|exact Hs].
    apply (keeps_client_of _ x (start_status_keeps callback r x)).
  - apply (guarded_token x); [|exact Hs].
    apply (keeps_client_of _ x (stop_status_keeps r x)).
  - apply (guarded_token x); [|exact Hs].
    apply (keeps_client_of _ x (start_ssid_keeps callback r x)).
  - apply (guarded_token x); [|exact Hs].
    apply (keeps_client_of _ x (stop_ssid_keeps r x)).
Qed.

(** X6. A stored token stays stored, and claiming stays disabled, through
    any sequence of operations on the whole object (lease operations,
    notifications, connects, discoveries, subscription calls) that
    contains no [reset] (or [reset_state], which is all [reset] calls),
    no [disconnect] and no status notification whose text contains
    "Expired" or "Reset"; every [claim] made after such a sequence
    returns [None], whatever the time. *)
Theorem token_stays_until_reset_disconnect_or_marker ops : forall x tok,
  lease_consistent (svc x) -> active_token (svc x) = Some tok ->
  forallb keeps_token_s ops = true ->
  active_token (svc (run_s ops x)) = Some tok
  /\ claim_enabled (svc (run_s ops x)) = false
  /\ forall t rd t', fst (claim t rd t' (svc (run_s ops x))) = Return None.
Proof.
  induction ops as [|op ops IH]; intros x tok Hc Hs Hk.
  - assert (Hf : claim_enabled (svc x) = false).
    { destruct Hc as [[Hn _] | (t0 & _ & _ & Hf)]; [congruence | exact Hf]. }
    simpl. split; [exact Hs | split; [exact Hf|]].
    intros. apply claim_refused_with_token, Hf.
  - simpl in Hk. apply andb_true_iff in Hk. destruct Hk as [Hk1 Hk2].
    simpl. apply IH; [apply after_s_consistent, Hc | | exact Hk2].
    apply keeps_token_s_step; assumption.
Qed.

Lemma token_stays_until_reset_disconnect_or_marker_witness :
  active_token
    (svc (run_s
            [SConnect (Return sample_scan) (Return tt)
               (Return sample_services) (Return tt) (Return tt) (Return tt);
             SCore (OpHold (Some sample_token) 2 (Return tt) 2);
             SStopStatus (Return tt);
             SDiscover (Return sample_services);
             SCore (OpGetState 1000);
             SCore (OpStatusNotification (blit "reset pending"));
             SCore (OpClaim 1000 (Return (blit "Zz999999")) 1000)]
            holding_session))
  = Some sample_token
  /\ claim_enabled
       (svc (run_s
               [SConnect (Return sample_scan) (Return tt)
                  (Return sample_services) (Return tt) (Return tt)
                  (Return tt);
                SCore (OpHold (Some sample_token) 2 (Return tt) 2);
                SStopStatus (Return tt);
                SDiscover (Return sample_services);
                SCore (OpGetState 1000);
                SCore (OpStatusNotification (blit "reset pending"));
                SCore (OpClaim 1000 (Return (blit "Zz999999")) 1000)]
               holding_session))
     = false.
Proof.
  destruct (token_stays_until_reset_disconnect_or_marker
              [SConnect (Return sample_scan) (Return tt)
                 (Return sample_services) (Return tt) (Return tt) (Return tt);
               SCore (OpHold (Some sample_token) 2 (Return tt) 2);
               SStopStatus (Return tt);
               SDiscover (Return sample_services);
               SCore (OpGetState 1000);
               SCore (OpStatusNotification (blit "reset pending"));
               SCore (OpClaim 1000 (Return (blit "Zz999999")) 1000)]
              holding_session sample_token) as (H1 & H2 & _).
  - right. exists sample_token. repeat split.
  - reflexivity.
  - reflexivity.
  - split; [exact H1 | exact H2].
Defined.

(** [disconnect] has to be excluded: it resets the lease, and after it
    and a new link the next claim succeeds. *)
Example disconnect_releases_the_token :
  active_token (svc holding_session) = Some sample_token
  /\ lease (svc (after_s (SDisconnect (Return tt)) holding_session))
     = (None, 0, true)
  /\ fst (claim 5 (Return (blit "Zz999999")) 5
            (svc (run_s [SDisconnect (Return tt); SCore sample_link]
                    holding_session)))
     = Return (Some (lit "Zz999999")).
Proof. vm_compute. repeat split. Qed.

(** ** Generated tokens *)

Lemma alphabet_alnum i :
  (i < 62)%nat -> alnum (nth i (ascii_letters ++ digits) 0%N) = true.
Proof.
  intros H.
  do 62 (destruct i as [|i]; [reflexivity|]). lia.
Qed.

Lemma alnum_not_space c : alnum c = true -> isspace c = false.
Proof.
  unfold alnum, isspace. intros H.
  repeat (apply orb_true_iff in H; destruct H as [H | H]);
    apply between_spec in H;
    repeat (apply orb_false_iff; split);
    try (apply between_false; lia); apply N.eqb_neq; lia.
Qed.

Lemma lstrip_fixed s :
  Forall (fun c => isspace c = false) s -> lstrip s = s.
Proof. intros H. destruct H as [|c s Hc Hs]; simpl; [|rewrite Hc]; reflexivity. Qed.

Lemma strip_fixed s :
  Forall (fun c => isspace c = false) s -> strip s = s.
Proof.
  intros H. unfold strip, rstrip. rewrite (lstrip_fixed s H).
  rewrite lstrip_fixed by (apply Forall_rev, H). apply rev_involutive.
Qed.

Lemma ascii_round_trip s :
  Forall (fun c => (c <= 127)%N) s ->
  exists b, encode s = Some b /\ decode b = Some s.
Proof.
  unfold decode. induction 1 as [|c s Hc Hs (b & He & Hd)].
  - exists []. split; reflexivity.
  - exists (byte_of_N c :: b). simpl. unfold encode_point.
    rewrite leb_true by assumption. rewrite He. split; [reflexivity|].
    assert (Hb : Byte.to_N (byte_of_N c) = c).
    { unfold byte_of_N. destruct (Byte.of_N c) as [y|] eqn:E.
      - apply Byte.to_of_N, E.
      - apply Byte.of_N_None_iff in E. lia. }
    rewrite Hb, leb_true by assumption. rewrite Hd. reflexivity.
Qed.

Lemma alnum_ascii c : alnum c = true -> (c <= 127)%N.
Proof.
  unfold alnum. intros H.
  repeat (apply orb_true_iff in H; destruct H as [H | H]);
    apply between_spec in H; lia.
Qed.

Lemma generated_alnum draw :
  (forall j, (draw j < 62)%nat) ->
  Forall (fun c => alnum c = true) (_generate_token draw).
Proof.
  intros H. unfold _generate_token, choices.
  apply Forall_map, Forall_forall. intros j _. apply alphabet_alnum, H.
Qed.

(** X23. [_generate_token] yields 8 ASCII letters and digits whenever
    each draw selects an index of the 62-character alphabet, and such a
    token is claimable: its UTF-8 bytes, read by [claim] on a connected
    object with claiming enabled, are stored and returned unchanged. *)
Theorem generated_token_is_claimable draw s t t' :
  (forall j, (draw j < 62)%nat) ->
  lease_consistent s -> not_ready s (_claim_char s) = false ->
  claim_enabled s = true ->
  len (_generate_token draw) = 8
  /\ Forall (fun c => alnum c = true) (_generate_token draw)
  /\ exists b,
       encode (_generate_token draw) = Some b
       /\ fst (claim t (Return b) t' s) = Return (Some (_generate_token draw))
       /\ lease (snd (claim t (Return b) t' s))
          = (Some (_generate_token draw), t', false).
Proof.
  intros Hd Hc Hready He.
  pose proof (generated_alnum draw Hd) as Ha.
  assert (Hl : len (_generate_token draw) = 8).
  { unfold _generate_token, choices, len. rewrite length_map, length_seq.
    reflexivity. }
  split; [exact Hl | split; [exact Ha|]].
  destruct (ascii_round_trip (_generate_token draw)) as (b & Hb & Hdec).
  { eapply Forall_impl; [|exact Ha]. intros c. apply alnum_ascii. }
  assert (Hs : strip (_generate_token draw) = _generate_token draw).
  { apply strip_fixed. eapply Forall_impl; [|exact Ha].
    intros c. apply alnum_not_space. }
  exists b. split; [exact Hb|].
  rewrite <- Hs in Hl.
  destruct (claim_stores_token s t b t' _ Hc Hready He Hdec Hl) as [H1 H2].
  rewrite Hs in H1, H2. split; assumption.
Qed.

Lemma generated_token_is_claimable_witness :
  len (_generate_token (fun j => (7 * j + 3) mod 62)%nat) = 8
  /\ Forall (fun c => alnum c = true)
       (_generate_token (fun j => (7 * j + 3) mod 62)%nat)
  /\ exists b,
       encode (_generate_token (fun j => (7 * j + 3) mod 62)%nat) = Some b
       /\ fst (claim 0 (Return b) 0 connected)
          = Return (Some (_generate_token (fun j => (7 * j + 3) mod 62)%nat))
       /\ lease (snd (claim 0 (Return b) 0 connected))
          = (Some (_generate_token (fun j => (7 * j + 3) mod 62)%nat),
             0, false).
Proof.
  apply (generated_token_is_claimable
           (fun j => (7 * j + 3) mod 62)%nat connected 0 0).
  - intros j. apply Nat.mod_upper_bound. discriminate.
  - left. split; reflexivity.
  - reflexivity.
  - reflexivity.
Defined.

(** ** The example run *)

Lemma get_state_effect now s : exists v, get_state now s = (Return v, s).
Proof. run_m; eexists; reflexivity. Qed.

Lemma claim_some_disables s t rd t' tok :
  fst (claim t rd t' s) = Return (Some tok) ->
  claim_enabled (snd (claim t rd t' s)) = false
  /\ active_token (snd (claim t rd t' s)) = Some tok.
Proof. run_m; intros [= <-]; auto. Qed.

Lemma hold_true_facts s tok t wr t' :
  fst (hold tok t wr t' s) = Return true ->
  last_hold_time (snd (hold tok t wr t' s)) = t'
  /\ truthy tok = true
  /\ tok = active_token (snd (hold tok t wr t' s))
  /\ not_ready (snd (hold tok t wr t' s))
       (_hold_char (snd (hold tok t wr t' s))) = false.
Proof.
  destruct (not_ready s (_hold_char s)) eqn:Hready.
  - run_k. discriminate.
  - ready Hready. split_valid s tok t; run_e; try discriminate; intros _.
    all: apply accepted_of_eq, accepted_iff in E.
    all: destruct E as (Ht & He & _).
    all: unfold not_ready; simpl; rewrite ?Econ; auto.
Qed.

Lemma expired_hold_raises s tok t wr t' :
  not_ready s (_hold_char s) = false ->
  truthy tok = true -> tok = active_token s -> t - last_hold_time s > 3 ->
  hold tok t wr t' s = (Raise (NameError "TOKEN_EXPIRATION"), s).
Proof. intros Hready Ht He Hd. ready Hready. run_v. reflexivity. Qed.

Ltac simp_p :=
  cbn -[decode strip encode contains len lit ssid_payload has_property
        Z.gtb Z.eqb Z.sub Z.le Z.lt Z.ge Z.gt Z.compare
        connect disconnect get_state read_status read_current_ssid
        claim hold wipe In].

Ltac unfold_p :=
  unfold print_state, try_except_finally, call, print, deliver,
    bind_p, ret_p, lift, client_connected.

Ltac plain S :=
  lazymatch S with
  | context [hold _ _ _ _ _] => fail
  | context [claim _ _ _ _] => fail
  | context [wipe _ _ _ _ _] => fail
  | context [read_status _ _] => fail
  | context [read_current_ssid _ _] => fail
  | context [get_state _ _] => fail
  | context [connect _ _ _ _ _ _ _] => fail
  | context [disconnect _ _] => fail
  | _ => idtac
  end.

Ltac next_call :=
  match goal with
  | |- context [get_state ?n ?S] =>
    plain S;
    let v := fresh "v" in
    let E := fresh "E" in
    destruct (get_state_effect n S) as [v E]; rewrite E
  | |- context [claim ?a ?b ?c ?S] =>
    plain S;
    let F := fresh "F" in
    let G := fresh "G" in
    let r := fresh "r" in
    let S' := fresh "s" in
    let E := fresh "E" in
    pose proof (claim_some_disables S a b c) as F;
    pose proof (claim_refused_with_token S a b c) as G;
    destruct (claim a b c S) as [r S'] eqn:E;
    cbn [fst snd] in F, G
  | |- context [hold ?k ?a ?b ?c ?S] =>
    plain S;
    let F := fresh "F" in
    let G := fresh "G" in
    let r := fresh "r" in
    let S' := fresh "s" in
    let E := fresh "E" in
    pose proof (gated_renewal_hold S k a b c) as F;
    pose proof (hold_true_facts S k a b c) as G;
    destruct (hold k a b c S) as [r S'] eqn:E;
    unfold renewal_only in F; cbn [fst snd] in F, G
  | |- context [connect ?a ?b ?c ?d ?e ?f ?X] =>
    plain X;
    destruct (connect a b c d e f X) as [? ?]
  | |- context [read_status ?a ?S] =>
    plain S;
    destruct (read_status a S) as [? ?]
  | |- context [read_current_ssid ?a ?S] =>
    plain S;
    destruct (read_current_ssid a S) as [? ?]
  | |- context [wipe ?k ?a ?b ?c ?S] =>
    plain S;
    destruct (wipe k a b c S) as [? ?]
  | |- context [disconnect ?a ?X] =>
    plain X;
    destruct (disconnect a X) as [? ?]
  end.

Ltac quiet_run :=
  let Hq := fresh "Hq" in
  intros Hq; unfold output, main; rewrite !Hq; clear Hq.

Ltac run_p :=
  quiet_run; unfold_p; simp_p;
  repeat (first [next_call | case_m]; simp_p).

Ltac not_printed :=
  let H := fresh "H" in
  intros H; cbn [In] in H;
  repeat (destruct H as [H | H]; [discriminate H|]); exact H.

Ltac contradict_claim :=
  exfalso;
  repeat match goal with
  | H : truthy ?a = true |- _ =>
    destruct a as [?|]; [clear H | discriminate H]
  | F : forall tok, Return (Some ?t) = Return (Some tok) -> _ |- _ =>
    specialize (F t eq_refl)
  | F : _ /\ _ |- _ => destruct F
  end;
  match goal with
  | G : claim_enabled ?s = false -> Return (Some _) = Return None |- _ =>
    let X := fresh "X" in
    assert (X : claim_enabled s = false) by congruence;
    specialize (G X); discriminate G
  end.

(** X24. In a run of [main] during which no notification is delivered,
    the line "--- Attempting Wipe ---" is never printed, whatever the
    device answers and whatever the clock reads: the second claim never
    yields a token. *)
Theorem demo_never_attempts_wipe d :
  quiet d -> ~ In (Line "\n--- Attempting Wipe ---") (output d).
Proof.
  run_p.
  all: first [not_printed | contradict_claim].
Qed.

Ltac printed := cbn [In]; repeat (first [left; reflexivity | right]).

Ltac expired_path Hd :=
  match goal with
  | G : Return true = Return true -> _ |- _ =>
    let L := fresh "L" in
    let T := fresh "T" in
    let A := fresh "A" in
    let R := fresh "R" in
    destruct (G eq_refl) as (L & T & A & R);
    match goal with
    | E : hold ?k ?a ?b ?c ?s = _, L' : last_hold_time ?s = _ |- _ =>
      rewrite (expired_hold_raises s k a b c R T A
                 ltac:(rewrite L'; exact Hd)) in E;
      first [discriminate E | injection E as <- <-]
    end
  end.

(** X25. In a run of [main] during which no notification is delivered, if
    the first hold printed [True] and the second hold is attempted more
    than 3 seconds after the first was confirmed, the run ends with the
    [NameError] for [TOKEN_EXPIRATION] reported by the exception handler
    of [main], and the second claim is never attempted. *)
Theorem demo_cut_short_at_expired_hold d :
  quiet d ->
  d_hold2_check d - d_hold_done d > 3 ->
  In (LineBool "Hold result: {hold_success}" true) (output d) ->
  In (LineExc "An error occurred in main: {e}"
        (NameError "TOKEN_EXPIRATION")) (output d)
  /\ ~ In (Line "\n--- Attempting Claim Again (should work now) ---")
         (output d).
Proof.
  run_p.
  all: intros Hd HIn; cbn [In] in HIn.
  all: repeat (destruct HIn as [HIn | HIn]; [try discriminate HIn|]);
       try contradiction.
  all: injection HIn as ->.
  all: expired_path Hd.
  all: split; [printed | not_printed].
Qed.

Lemma demo_never_attempts_wipe_witness :
  ~ In (Line "\n--- Attempting Wipe ---") (output sample_demo).
Proof.
  apply (demo_never_attempts_wipe sample_demo). intros k. reflexivity.
Defined.

Lemma demo_cut_short_at_expired_hold_witness :
  In (LineExc "An error occurred in main: {e}"
        (NameError "TOKEN_EXPIRATION")) (output sample_demo)
  /\ ~ In (Line "\n--- Attempting Claim Again (should work now) ---")
         (output sample_demo).
Proof.
  apply (demo_cut_short_at_expired_hold sample_demo).
  - intros k. reflexivity.
  - reflexivity.
  - vm_compute. printed.
Defined.

(** Without the condition on notifications neither statement holds: a
    status notification reading "Reset" that arrives during the sleep
    makes the second hold return [False], the second claim is attempted
    and succeeds, and the wipe is attempted. *)
Example notification_lets_the_demo_reach_wipe :
  In (LineBool "Hold result: {hold_success}" true) (output released_demo)
  /\ d_hold2_check released_demo - d_hold_done released_demo > 3
  /\ In (Line "\n--- Attempting Claim Again (should work now) ---")
       (output released_demo)
  /\ In (Line "\n--- Attempting Wipe ---") (output released_demo).
Proof.
  split; [vm_compute; printed | split; [reflexivity|]].
  split; vm_compute; printed.
Qed.
